(** * Mini-Shell: the command-tree evaluator of [cmd.c]

    A shallow embedding of [src/cmd.c] and the properties of its text
    expansion, redirection, builtin, simple-command and composite
    executors.

    Conventions of the embedding.
    - C strings are [string]s; a [char *] that may be [NULL] is an
      [option string].  [malloc] and [strdup] are taken to succeed.  Of
      the memory of the process the file represents what the behaviour of
      the code depends on: the capacity of the two arrays that
      [expand_variables] writes into ([var_name], of 128 bytes, and the
      block of [PATH_MAX] bytes), and, where the pointer given to [free]
      can be another one than the allocation returned ([parse_simple],
      [shell_cd]), what that pointer points to.  Where the source frees
      the very pointer it got from [malloc], once and after its last use,
      the call changes nothing that is represented and has no
      counterpart.
    - [int] values are in [Z].
    - The operating system is a black box: calls whose failure the source
      tests and which depend on the machine (open, chdir, getcwd, fork,
      pipe, execvp) draw their outcome from an oracle carried by the
      state; the descriptor table, the environment and the table of
      children are represented, and calls on them are computed.
    - Processes do not interleave: a forked child runs to its end before
      its parent goes on.
    - What C leaves undefined (a NULL string given to [strcmp], a status
      read after a failed [waitpid], an access outside an array, a [free]
      of a pointer that no allocation returned) is an outcome of its own:
      [Overrun] for the functions that only compute, [Undef] for the
      others. *)

From Stdlib Require Import ZArith Ascii String List Bool Lia.
From stdpp Require Import gmap strings list.
From Equations Require Import Equations.

Local Open Scope string_scope.
Local Open Scope Z_scope.

(** ** Text expansion *)

Module Text.

(** [isalnum] of <ctype.h> in the C locale. *)
Definition isdigit (c : ascii) : bool :=
  let n := nat_of_ascii c in (48 <=? n)%nat && (n <=? 57)%nat.

Definition isalpha (c : ascii) : bool :=
  let n := nat_of_ascii c in
  ((65 <=? n)%nat && (n <=? 90)%nat) || ((97 <=? n)%nat && (n <=? 122)%nat).

Definition isalnum (c : ascii) : bool := isalpha c || isdigit c.

(** The test of the inner loop of [expand_variables]:
    [isalnum( *ptr) || *ptr == '_']. *)
Definition is_name_char (c : ascii) : bool := isalnum c || Ascii.eqb c "_".

(** [getenv] over an environment: the empty name is never found. *)
Definition getenv (env : gmap string string) (name : string) : option string :=
  if String.eqb name "" then None else env !! name.

(** What a function that only computes gives: its result when every
    access stays inside the arrays it uses, and [Overrun] when one does
    not, where C leaves the behaviour undefined. *)
Inductive written (A : Type) : Type :=
| Fits (a : A)
| Overrun.
Arguments Fits {A} a.
Arguments Overrun {A}.

(** [PATH_MAX] of <limits.h>, the size of the block that
    [expand_variables] allocates for its result. *)
Definition PATH_MAX : nat := 4096.

(** Inner loop of [expand_variables], on [char var_name[128] = {0}]:
    [while ( *ptr && (isalnum( *ptr) || *ptr == '_')) *var_ptr++ = *ptr++;]
    [var_name] is what has been copied so far; the write is inside the
    array when fewer than 128 characters were copied before it.  Returns
    the name and the position [ptr] reached. *)
Fixpoint scan_name (ptr var_name : string) : written (string * string) :=
  match ptr with
  | String c rest =>
      if is_name_char c then
        if (String.length var_name <? 128)%nat
        then scan_name rest (var_name ++ String c "")
        else Overrun
      else Fits (var_name, ptr)
  | EmptyString => Fits (var_name, ptr)
  end.

Lemma scan_name_length ptr var_name name ptr' :
  scan_name ptr var_name = Fits (name, ptr') →
  (String.length ptr' <= String.length ptr)%nat.
Proof.
  revert var_name. induction ptr as [|c rest IH]; simpl; intros var_name H.
  - injection H as <- <-. simpl. lia.
  - destruct (is_name_char c).
    + destruct (_ <? _)%nat; [|discriminate]. apply IH in H. lia.
    + injection H as <- <-. simpl. lia.
Qed.

(** A value together with the equation that it is the value of [a]. *)
Definition inspect {A} (a : A) : {b : A | a = b} := exist _ a eq_refl.

(** Outer loop of [expand_variables]: [ptr] is the input still to read,
    [output] what has been written to [expanded] so far, so that the next
    write goes to [expanded[String.length output]].
    - [getenv(var_name)] reads [var_name] up to its terminator: there is
      one in the array when fewer than 128 characters were copied;
    - [sprintf(output, "%s", value)] writes the value and its terminator;
    - [*output++ = *ptr++] and the final [*output = '\0'] write one
      character. *)
Equations? expand_loop (env : gmap string string) (ptr output : string)
  : written string by wf (String.length ptr) lt :=
  expand_loop env EmptyString output :=
    if (String.length output <? PATH_MAX)%nat then Fits output else Overrun;
  expand_loop env (String c rest) output with Ascii.eqb c "$" => {
    | true with inspect (scan_name rest "") => {
        | exist _ (Fits (var_name, ptr')) E =>
            if (String.length var_name <? 128)%nat then
              match getenv env var_name with
              | Some value =>
                  if (String.length output + String.length value <? PATH_MAX)%nat
                  then expand_loop env ptr' (output ++ value)
                  else Overrun
              | None => expand_loop env ptr' output
              end
            else Overrun;
        | exist _ Overrun _ => Overrun };
    | false =>
        if (String.length output <? PATH_MAX)%nat
        then expand_loop env rest (output ++ String c "")
        else Overrun }.
Proof.
  all: try (apply scan_name_length in E); simpl in *; lia.
Qed.

Definition expand_variables (env : gmap string string) (input : option string)
  : written (option string) :=
  match input with
  | None => Fits None
  | Some s =>
      match expand_loop env s "" with
      | Fits expanded => Fits (Some expanded)
      | Overrun => Overrun
      end
  end.

(** Loop of [remove_quotes]. *)
Fixpoint remove_quotes_loop (ptr output : string) : string :=
  match ptr with
  | EmptyString => output
  | String c rest =>
      if negb (Ascii.eqb c "'") && negb (Ascii.eqb c "034")
      then remove_quotes_loop rest (output ++ String c "")
      else remove_quotes_loop rest output
  end.

Definition remove_quotes (input : option string) : option string :=
  match input with
  | None => None
  | Some s => Some (remove_quotes_loop s "")
  end.

(** [strchr(s, c) != NULL] *)
Fixpoint strchr (s : string) (c : ascii) : bool :=
  match s with
  | EmptyString => false
  | String x rest => Ascii.eqb x c || strchr rest c
  end.

(** [s + strspn(s, delim)]: [s] without its leading delimiters. *)
Fixpoint skip_delims (s delim : string) : string :=
  match s with
  | EmptyString => EmptyString
  | String x rest => if strchr delim x then skip_delims rest delim else s
  end.

(** The token of length [strcspn(s, delim)] at the start of [s], and [s]
    from the delimiter that ends it. *)
Fixpoint split_token (s delim : string) : string * string :=
  match s with
  | EmptyString => ("", "")
  | String x rest =>
      if strchr delim x then ("", s)
      else let '(token, s') := split_token rest delim in (String x token, s')
  end.

(** [strtok_r(str, delim, &saveptr)]: the token, [None] for [NULL], and
    the new value of [saveptr].  A pointer into the string is given by
    the text from it to the end of the string: it points as many
    characters after the start as that text is shorter than the whole. *)
Definition strtok_r (str : option string) (delim saveptr : string)
  : option string * string :=
  let s := match str with Some s => s | None => saveptr end in
  match skip_delims s delim with
  | EmptyString => (None, "")
  | s' =>
      let '(token, rest) := split_token s' delim in
      match rest with
      | EmptyString => (Some token, "")
      | String _ rest' => (Some token, rest')
      end
  end.

End Text.

(** ** The operating system as seen by [cmd.c] *)

Module OS.

(** What [waitpid] stores in [status]. *)
Inductive wait_status :=
| Exited (code : Z)      (* the process called exit; [code] is in 0..255 *)
| Signaled (sig : Z).    (* the process was terminated by a signal *)

Definition WIFEXITED (status : wait_status) : bool :=
  match status with Exited _ => true | Signaled _ => false end.

Definition WEXITSTATUS (status : wait_status) : Z :=
  match status with Exited code => code | Signaled _ => 0 end.

(** An open file description, what a descriptor refers to. *)
Inductive ofd :=
| Terminal
| File (id : positive) (path : string) (flags : Z)
| PipeRead (id : positive)
| PipeWrite (id : positive).

(** The calls that are visible from outside the process. *)
Inductive event :=
| EvOpen (path : string) (flags : Z) (opened : option positive)
| EvChdir (path : string) (ok : bool)
| EvOutput (target : option ofd) (text : string)
| EvPerror (target : option ofd) (prefix : string) (errno : Z)
| EvExec (file : string) (argv : list string) (stdin stdout stderr : option ofd).

(** One answer of the machine to one call. *)
Inductive answer :=
| Done                 (* the call succeeds; a program run exits with 0 *)
| Error (errno : Z)    (* the call fails and sets errno *)
| Killed (sig : Z)     (* a signal ends the process created, before it does
                          anything, or the program run *)
| Status (code : Z)    (* the program run calls exit(code) *)
| Text (s : string).   (* the string the call yields *)

Record World := mkWorld {
  env : gmap string string;        (* the environment of this process *)
  fds : gmap Z ofd;                (* its descriptor table *)
  children : gmap Z wait_status;   (* its terminated, unwaited children *)
  trace : list event;              (* what happened so far, oldest first *)
  oracle : list answer;            (* the answers still to come *)
  next_id : positive;              (* supply of identities for descriptions *)
  errno : Z
}.

Definition with_env (e : gmap string string) (w : World) : World :=
  mkWorld e (fds w) (children w) (trace w) (oracle w) (next_id w) (errno w).
Definition with_fds (f : gmap Z ofd) (w : World) : World :=
  mkWorld (env w) f (children w) (trace w) (oracle w) (next_id w) (errno w).
Definition with_children (c : gmap Z wait_status) (w : World) : World :=
  mkWorld (env w) (fds w) c (trace w) (oracle w) (next_id w) (errno w).
Definition with_trace (t : list event) (w : World) : World :=
  mkWorld (env w) (fds w) (children w) t (oracle w) (next_id w) (errno w).
Definition with_oracle (o : list answer) (w : World) : World :=
  mkWorld (env w) (fds w) (children w) (trace w) o (next_id w) (errno w).
Definition with_next_id (n : positive) (w : World) : World :=
  mkWorld (env w) (fds w) (children w) (trace w) (oracle w) n (errno w).
Definition with_errno (e : Z) (w : World) : World :=
  mkWorld (env w) (fds w) (children w) (trace w) (oracle w) (next_id w) e.

(** How a piece of code of the process ends. *)
Inductive outcome (A : Type) :=
| Ret (a : A) (w : World)            (* it returns [a] *)
| Halt (s : wait_status) (w : World) (* the process has terminated *)
| Undef (w : World).                 (* C leaves the behaviour undefined *)
Arguments Ret {A} a w.
Arguments Halt {A} s w.
Arguments Undef {A} w.

Definition M (A : Type) : Type := World → outcome A.

#[export] Instance M_ret : MRet M := λ A a w, Ret a w.
#[export] Instance M_bind : MBind M := λ A B f m w,
  match m w with
  | Ret a w' => f a w'
  | Halt s w' => Halt s w'
  | Undef w' => Undef w'
  end.

Definition get {A} (f : World → A) : M A := λ w, Ret (f w) w.
Definition modify (f : World → World) : M unit := λ w, Ret tt (f w).
Definition undefined {A} : M A := λ w, Undef w.

(** [exit(code)]: the parent sees the low eight bits. *)
Definition exit {A} (code : Z) : M A := λ w, Halt (Exited (Z.land code 255)) w.

(** What a pointer given to [free] points to. *)
Inductive pointer :=
| Into (offset : nat)  (* [offset] bytes into a block that [malloc] or
                          [strdup] returned and that was not freed *)
| Foreign.             (* memory that is not from [malloc]: the string
                          that [getenv] returns *)

(** [free(ptr)]: defined for the pointer that the allocation returned. *)
Definition free (ptr : pointer) : M unit :=
  match ptr with
  | Into O => mret tt
  | _ => undefined
  end.

Definition emit (e : event) : M unit := modify (λ w, with_trace (trace w ++ [e]) w).

(** The next answer of the machine; [Done] when none is left. *)
Definition ask : M answer := λ w,
  Ret (hd Done (oracle w)) (with_oracle (tl (oracle w)) w).

Definition fresh_id : M positive := λ w,
  Ret (next_id w) (with_next_id (Pos.succ (next_id w)) w).

(** The lowest number not in use in a table, searched from [n] upwards. *)
Fixpoint lowest_free {V} (table : gmap Z V) (fuel : nat) (n : Z) : Z :=
  match fuel with
  | O => n
  | S fuel' =>
      match table !! n with
      | None => n
      | Some _ => lowest_free table fuel' (n + 1)
      end
  end.

(** The descriptor that [open], [dup] and [pipe] hand out. *)
Definition alloc_fd (table : gmap Z ofd) : Z := lowest_free table (size table) 0.

(** The pid of a new child: positive, and not that of an unwaited child. *)
Definition alloc_pid (table : gmap Z wait_status) : Z :=
  lowest_free table (size table) 1.

Definition install (d : ofd) : M Z :=
  fd ← get (λ w, alloc_fd (fds w));
  modify (λ w, with_fds (<[fd := d]> (fds w)) w);;
  mret fd.

Definition ENOENT : Z := 2.
Definition EBADF : Z := 9.
Definition ECHILD : Z := 10.
Definition EAGAIN : Z := 11.
Definition ENOMEM : Z := 12.
Definition EINVAL : Z := 22.
Definition ENFILE : Z := 23.
Definition EMFILE : Z := 24.
Definition ERANGE : Z := 34.

(** A failing call: it sets [errno] and returns [result]. *)
Definition failing {A} (e : Z) (result : A) : M A :=
  modify (with_errno e);; mret result.

Definition O_RDONLY : Z := 0.
Definition O_WRONLY : Z := 1.
Definition O_CREAT : Z := 64.
Definition O_TRUNC : Z := 512.
Definition O_APPEND : Z := 1024.
Definition STDIN_FILENO : Z := 0.
Definition STDOUT_FILENO : Z := 1.
Definition STDERR_FILENO : Z := 2.
Definition EXIT_FAILURE : Z := 1.

(** [open(path, flags[, 0644])] *)
Definition open (path : string) (flags : Z) : M Z :=
  a ← ask;
  match a with
  | Error e => emit (EvOpen path flags None);; failing e (-1)
  | _ =>
      id ← fresh_id;
      emit (EvOpen path flags (Some id));;
      install (File id path flags)
  end.

(** [dup(oldfd)] *)
Definition dup (oldfd : Z) : M Z :=
  table ← get fds;
  match table !! oldfd with
  | None => failing EBADF (-1)
  | Some d => install d
  end.

(** [dup2(oldfd, newfd)] *)
Definition dup2 (oldfd newfd : Z) : M Z :=
  table ← get fds;
  match table !! oldfd with
  | None => failing EBADF (-1)
  | Some d =>
      if newfd <? 0 then failing EBADF (-1)
      else modify (with_fds (<[newfd := d]> table));; mret newfd
  end.

(** [close(fd)] *)
Definition close (fd : Z) : M Z :=
  table ← get fds;
  match table !! fd with
  | None => failing EBADF (-1)
  | Some _ => modify (with_fds (delete fd table));; mret 0
  end.

(** [pipe(pipefd)]: [None] is the result -1, otherwise the two ends
    [pipefd[0]] and [pipefd[1]]. *)
Definition pipe : M (option (Z * Z)) :=
  a ← ask;
  match a with
  | Error e => failing e None
  | _ =>
      id ← fresh_id;
      rd ← install (PipeRead id);
      wr ← install (PipeWrite id);
      mret (Some (rd, wr))
  end.

(** [chdir(path)] *)
Definition chdir (path : string) : M Z :=
  a ← ask;
  match a with
  | Error e => emit (EvChdir path false);; failing e (-1)
  | _ => emit (EvChdir path true);; mret 0
  end.

(** [getcwd(buf, size)]: [None] is [NULL]. *)
Definition getcwd (size : nat) : M (option string) :=
  a ← ask;
  match a with
  | Error e => failing e None
  | Text s =>
      if (String.length s <? size)%nat then mret (Some s)
      else failing ERANGE None
  | _ => mret (Some "/")
  end.

(** [setenv(name, value, overwrite)] *)
Definition setenv (name value : string) (overwrite : Z) : M Z :=
  if String.eqb name "" || Text.strchr name "="
  then failing EINVAL (-1)
  else
    e ← get env;
    match e !! name with
    | Some _ => if overwrite =? 0 then mret 0
                else modify (with_env (<[name := value]> e));; mret 0
    | None => modify (with_env (<[name := value]> e));; mret 0
    end.

(** Text written through stdio to descriptor [fd]. *)
Definition output (fd : Z) (text : string) : M unit :=
  table ← get fds;
  emit (EvOutput (table !! fd) text).

(** [perror(prefix)] *)
Definition perror (prefix : string) : M unit :=
  table ← get fds;
  e ← get errno;
  emit (EvPerror (table !! STDERR_FILENO) prefix e).

(** The parent after a child it forked has ended with [s] in [wc]: its
    own environment and descriptors, the child in its table, and the
    child's trace, oracle and identities. *)
Definition resume (w : World) (pid : Z) (s : wait_status) (wc : World) : World :=
  mkWorld (env w) (fds w) (<[pid := s]> (children w))
          (trace wc) (oracle wc) (next_id wc) (errno w).

(** [fork()], with the code the child runs.  The child gets a copy of the
    environment and of the descriptor table and has no children; the trace
    and the oracle go on through it.  The model lets the child run to its
    end before the parent resumes.  The result is the child's pid, or -1. *)
Definition fork (child : M Empty_set) : M Z := λ w,
  match ask w with
  | Ret (Error e) w1 => Ret (-1) (with_errno e w1)
  | Ret a w1 =>
      let pid := alloc_pid (children w) in
      match a with
      | Killed sig => Ret pid (resume w pid (Signaled sig) w1)
      | _ =>
          match child (with_children ∅ w1) with
          | Ret e _ => match e with end
          | Halt s wc => Ret pid (resume w pid s wc)
          | Undef wc => Undef wc
          end
      end
  | Halt s w1 => Halt s w1
  | Undef w1 => Undef w1
  end.

(** [waitpid(pid, &status, 0)]: [None] is the result -1, otherwise what
    was stored in [status]. *)
Definition waitpid (pid : Z) : M (option wait_status) :=
  c ← get children;
  match c !! pid with
  | None => failing ECHILD None
  | Some s => modify (with_children (delete pid c));; mret (Some s)
  end.

(** [execvp(file, argv)]: returns only when the image was not replaced. *)
Definition execvp (file : string) (argv : list string) : M Z :=
  if String.eqb file "" then failing ENOENT (-1)
  else
    a ← ask;
    match a with
    | Error e => failing e (-1)
    | _ =>
        table ← get fds;
        emit (EvExec file argv (table !! STDIN_FILENO) (table !! STDOUT_FILENO)
                (table !! STDERR_FILENO));;
        match a with
        | Killed sig => λ w, Halt (Signaled sig) w
        | Status code => exit code
        | _ => exit 0
        end
    end.

End OS.

(** ** The evaluator *)

Module Shell.
Import Text OS.

(** Modelled from the spec: the declaration of [simple_command_t] is in
    [cmd.h], which is not among the sources.  It is the spec's
    SimpleCommand (verb, arguments, three optional redirect targets,
    append flags), with the fields under the names [cmd.c] reads them by,
    [in_] for [in]. *)
Record simple_command_t (word_t : Type) := mk_simple_command {
  verb : option word_t;
  params : option word_t;
  in_ : option word_t;
  out : option word_t;
  err : option word_t;
  io_flags : Z
}.
Arguments mk_simple_command {word_t}.
Arguments verb {word_t}.
Arguments params {word_t}.
Arguments in_ {word_t}.
Arguments out {word_t}.
Arguments err {word_t}.
Arguments io_flags {word_t}.

(** What [cmd.c] takes from [cmd.h] and [utils.h] without defining it:
    the type of words, of which it reads the field [string] only, the
    functions [get_word] and [get_argv], which read the environment, and
    three constants. *)
Class Parser := {
  word_t : Type;
  word_string : word_t → option string;
  get_word : gmap string string → word_t → string;
  get_argv : gmap string string → simple_command_t word_t → list string;
  IO_OUT_APPEND : Z;
  IO_ERR_APPEND : Z;
  SHELL_EXIT : Z
}.

(** Modelled from the spec: the enumeration is declared in [cmd.h]; the
    spec's OperatorKind, with the constants [parse_command] tests. *)
Inductive operator_t :=
| OP_NONE
| OP_SEQUENTIAL
| OP_PARALLEL
| OP_CONDITIONAL_ZERO
| OP_CONDITIONAL_NZERO
| OP_PIPE
| OP_other.   (* any value the switch of [parse_command] does not name *)

(** Modelled from the spec: the spec's CommandNode with the fields
    [parse_command] reads.  A value of [command_t] is a pointer
    [command_t *]: [NULL] or a node. *)
Inductive command_t {P : Parser} :=
| NULL
| Command (op : operator_t) (cmd1 cmd2 : command_t)
          (scmd : option (simple_command_t word_t)).

Definition is_null {P : Parser} (c : command_t) : bool :=
  match c with NULL => true | Command _ _ _ _ => false end.

Definition nl : string := String "010" EmptyString.

Section Evaluator.
Context {P : Parser}.

Definition get_io_flags (io_flags append_flag : Z) : Z :=
  let flags := Z.lor O_WRONLY O_CREAT in
  if Z.land io_flags append_flag =? 0
  then Z.lor flags O_TRUNC
  else Z.lor flags O_APPEND.

(** [strcmp(a, b) == 0]; a NULL argument is undefined. *)
Definition strcmp_eq (a b : option string) : M bool :=
  match a, b with
  | Some x, Some y => mret (String.eqb x y)
  | _, _ => undefined
  end.

(** First block of [handle_redirection]: [< file]. *)
Definition redirect_input (cmd : simple_command_t word_t) : M unit :=
  match in_ cmd with
  | Some win =>
      e ← get env;
      match expand_variables e (word_string win) with
      | Fits (Some expanded_in) =>
          fd_in ← open expanded_in O_RDONLY;
          if fd_in =? -1 then
            perror "Error opening input file";; exit EXIT_FAILURE
          else
            dup2 fd_in STDIN_FILENO;; close fd_in;; mret tt
      | Fits None => mret tt
      | Overrun => undefined
      end
  | None => mret tt
  end.

(** The branch [&> file] of [handle_redirection]. *)
Definition redirect_combined (cmd : simple_command_t word_t) (wout : word_t)
  : M unit :=
  e ← get env;
  match expand_variables e (word_string wout) with
  | Fits (Some expanded_out_err) =>
      let flags := get_io_flags (io_flags cmd) IO_OUT_APPEND in
      fd_out_err ← open expanded_out_err flags;
      if fd_out_err =? -1 then
        perror "Error opening combined output file";; exit EXIT_FAILURE
      else
        dup2 fd_out_err STDOUT_FILENO;;
        dup2 fd_out_err STDERR_FILENO;;
        close fd_out_err;; mret tt
  | Fits None => mret tt
  | Overrun => undefined
  end.

(** The [else] branch of [handle_redirection]: [> file], [2> file]. *)
Definition redirect_separate (cmd : simple_command_t word_t) : M unit :=
  match out cmd with
  | Some wout =>
      e ← get env;
      match expand_variables e (word_string wout) with
      | Fits None => perror "Error expanding output file";; exit EXIT_FAILURE
      | Fits (Some expanded_out) =>
          let flags := get_io_flags (io_flags cmd) IO_OUT_APPEND in
          fd_out ← open expanded_out flags;
          if fd_out =? -1 then
            perror "Error opening output file";; exit EXIT_FAILURE
          else
            dup2 fd_out STDOUT_FILENO;; close fd_out;; mret tt
      | Overrun => undefined
      end
  | None => mret tt
  end;;
  match err cmd with
  | Some werr =>
      e ← get env;
      match expand_variables e (word_string werr) with
      | Fits (Some expanded_err) =>
          let flags := get_io_flags (io_flags cmd) IO_ERR_APPEND in
          fd_err ← open expanded_err flags;
          if fd_err =? -1 then
            perror "Error opening error file";; exit EXIT_FAILURE
          else
            dup2 fd_err STDERR_FILENO;; close fd_err;; mret tt
      | Fits None => mret tt
      | Overrun => undefined
      end
  | None => mret tt
  end.

Definition handle_redirection (cmd : option (simple_command_t word_t)) : M unit :=
  match cmd with
  | None => mret tt
  | Some cmd =>
      redirect_input cmd;;
      match out cmd, err cmd with
      | Some wout, Some werr =>
          same ← strcmp_eq (word_string wout) (word_string werr);
          if (same : bool) then redirect_combined cmd wout else redirect_separate cmd
      | _, _ => redirect_separate cmd
      end
  end.

(** [if (dir && dir->string) free((char * )target_dir);] of [shell_cd];
    [target] says what [target_dir] points to. *)
Definition cd_release (dir : option word_t) (target : pointer) : M unit :=
  match dir with
  | Some d =>
      match word_string d with
      | Some _ => free target
      | None => mret tt
      end
  | None => mret tt
  end.

(** Second part of [shell_cd], "Change directory". *)
Definition cd_change (dir : option word_t) (target_dir : string)
    (target : pointer) : M bool :=
  r ← chdir target_dir;
  if negb (r =? 0) then
    output STDERR_FILENO
      ("cd: " ++ target_dir ++ ": No such file or directory" ++ nl);;
    cd_release dir target;;
    mret false
  else cd_release dir target;; mret true.

(** [shell_cd]: the target is the block that [remove_quotes] allocated,
    or the string of [getenv]. *)
Definition shell_cd (dir : option word_t) : M bool :=
  let home : M bool :=
    e ← get env;
    match getenv e "HOME" with
    | Some target_dir => cd_change dir target_dir Foreign
    | None => output STDERR_FILENO ("cd: HOME not set" ++ nl);; mret false
    end in
  match dir with
  | Some d =>
      match word_string d with
      | Some (String c s) =>
          match remove_quotes (Some (String c s)) with
          | Some target_dir => cd_change dir target_dir (Into 0)
          | None =>
              output STDERR_FILENO ("cd: Memory allocation failed" ++ nl);;
              mret false
          end
      | _ => home
      end
  | None => home
  end.

Definition shell_pwd : M unit :=
  cwd ← getcwd 4096;
  match cwd with
  | Some cwd =>
      match cwd with
      | String _ _ => output STDOUT_FILENO (cwd ++ nl)
      | EmptyString => output STDERR_FILENO ("pwd: unexpected empty path" ++ nl)
      end
  | None =>
      again ← getcwd 4096;
      match again with
      | None => perror "pwd"
      | Some _ =>
          output STDERR_FILENO
            ("pwd: buffer too small to store the full path" ++ nl)
      end
  end.

Definition shell_exit : M Z := exit 0.

(** The child of [parse_simple] that becomes the external program. *)
Definition external (s : simple_command_t word_t) (word : string) : M Empty_set :=
  handle_redirection (Some s);;
  e ← get env;
  execvp word (get_argv e s);;
  output STDERR_FILENO ("Execution failed for '" ++ word ++ "'" ++ nl);;
  exit EXIT_FAILURE.

Definition parse_simple (s : option (simple_command_t word_t)) (level : Z)
    (father : command_t) : M Z :=
  match s with
  | None => mret (-1)
  | Some s =>
  match verb s with
  | None => mret (-1)
  | Some v =>
  match word_string v with
  | None => mret (-1)
  | Some _ =>
      e ← get env;
      let word := get_word e v in
      if strchr word "=" then
        (* [word_copy] is first the block that [strdup(word)] returned,
           then what [strtok_r] stores through [&word_copy]: a pointer
           further on in that block, after the part that has been read *)
        let '(name, word_copy) := strtok_r (Some word) "=" word in
        let '(value, word_copy) := strtok_r None "=" word_copy in
        let offset := (String.length word - String.length word_copy)%nat in
        match name, value with
        | Some name, Some value =>
            result ← setenv name value 1;
            free (Into offset);;
            mret result
        | _, _ => free (Into offset);; mret (-1)
        end
      else if String.eqb word "cd" || String.eqb word "pwd" ||
              String.eqb word "exit" || String.eqb word "quit" then
        saved_stdout ← dup STDOUT_FILENO;
        saved_stderr ← dup STDERR_FILENO;
        handle_redirection (Some s);;
        result ←
          (if String.eqb word "cd" then
             ok ← shell_cd (params s);
             mret (if (ok : bool) then 0 else 1)
           else if String.eqb word "pwd" then
             shell_pwd;; mret 0
           else if String.eqb word "exit" || String.eqb word "quit" then
             shell_exit;; mret 0
           else mret 0);
        dup2 saved_stdout STDOUT_FILENO;;
        dup2 saved_stderr STDERR_FILENO;;
        close saved_stdout;;
        close saved_stderr;;
        mret result
      else
        pid ← fork (external s word);
        if pid =? -1 then
          perror "fork";; mret 1
        else
          status ← waitpid pid;
          match status with
          | Some status =>
              if WIFEXITED status then mret (WEXITSTATUS status) else mret 1
          | None => undefined
          end
  end end end.

(** What a child of a composite node does: [exit(parse_command(...))]. *)
Definition subshell (body : M Z) : M Empty_set :=
  exit_code ← body; exit exit_code.

(** [run_in_parallel]; [parse_command] is passed for the calls that the
    two children make. *)
Definition run_in_parallel
    (parse_command : command_t → Z → command_t → M Z)
    (cmd1 cmd2 : command_t) (level : Z) (father : command_t) : M bool :=
  if is_null cmd1 || is_null cmd2 then mret false
  else
    pid1 ← fork (subshell (parse_command cmd1 (level + 1) father));
    if pid1 =? -1 then perror "fork (cmd1)";; mret false
    else
      pid2 ← fork (subshell (parse_command cmd2 (level + 1) father));
      if pid2 =? -1 then perror "fork (cmd2)";; mret false
      else
        status1 ← waitpid pid1;
        match status1 with
        | None => perror "waitpid";; mret false
        | Some status1 =>
            status2 ← waitpid pid2;
            match status2 with
            | None => perror "waitpid";; mret false
            | Some status2 =>
                if WIFEXITED status1 && WIFEXITED status2
                then mret true else mret false
            end
        end.

(** First child of [run_on_pipe]: standard output to the write end. *)
Definition pipe_writer (pipefd0 pipefd1 : Z) (body : M Z) : M Empty_set :=
  close pipefd0;;
  r ← dup2 pipefd1 STDOUT_FILENO;
  if r =? -1 then perror "dup2 (cmd1)";; exit EXIT_FAILURE
  else close pipefd1;; subshell body.

(** Second child of [run_on_pipe]: standard input from the read end. *)
Definition pipe_reader (pipefd0 pipefd1 : Z) (body : M Z) : M Empty_set :=
  close pipefd1;;
  r ← dup2 pipefd0 STDIN_FILENO;
  if r =? -1 then perror "dup2 (cmd2)";; exit EXIT_FAILURE
  else close pipefd0;; subshell body.

(** [run_on_pipe]; [parse_command] is passed for the calls that the two
    children make. *)
Definition run_on_pipe
    (parse_command : command_t → Z → command_t → M Z)
    (cmd1 cmd2 : command_t) (level : Z) (father : command_t) : M bool :=
  pipefd ← pipe;
  match pipefd with
  | None =>
      e ← get errno;
      if (e =? EMFILE) || (e =? ENFILE) then
        perror "pipe (resource-related error)";; mret false
      else
        perror "pipe (error)";; mret false
  | Some (pipefd0, pipefd1) =>
      pid1 ← fork (pipe_writer pipefd0 pipefd1
                     (parse_command cmd1 (level + 1) father));
      if pid1 =? -1 then
        e ← get errno;
        if (e =? EAGAIN) || (e =? ENOMEM) then
          perror "fork (resource-related error)";; mret false
        else
          perror "fork (error)";;
          close pipefd0;; close pipefd1;; mret false
      else
        pid2 ← fork (pipe_reader pipefd0 pipefd1
                       (parse_command cmd2 (level + 1) father));
        if pid2 <? 0 then
          close pipefd0;; close pipefd1;;
          cleaned ← waitpid pid1;
          match cleaned with
          | None => perror "Failed to clean up pid1"
          | Some _ => mret tt
          end;;
          perror "Forking cmd2 failed";; mret false
        else
          close pipefd0;; close pipefd1;;
          waitpid pid1;;
          status2 ← waitpid pid2;
          match status2 with
          | Some status2 =>
              mret (WIFEXITED status2 && (WEXITSTATUS status2 =? 0))
          | None => undefined
          end
  end.

Fixpoint parse_command (c : command_t) (level : Z) (father : command_t) : M Z :=
  match c with
  | NULL => mret (-1)
  | Command op cmd1 cmd2 scmd =>
      if is_null father && negb (level =? 0) then mret (-1)
      else
        match op with
        | OP_NONE => parse_simple scmd level father
        | OP_PARALLEL =>
            ok ← run_in_parallel parse_command cmd1 cmd2 level c;
            if (ok : bool) then mret 0 else mret (-1)
        | OP_SEQUENTIAL =>
            parse_command cmd1 (level + 1) c;;
            parse_command cmd2 (level + 1) c
        | OP_CONDITIONAL_ZERO =>
            r ← parse_command cmd1 (level + 1) c;
            if r =? 0 then parse_command cmd2 (level + 1) c else mret 0
        | OP_CONDITIONAL_NZERO =>
            r ← parse_command cmd1 (level + 1) c;
            if negb (r =? 0) then parse_command cmd2 (level + 1) c else mret 0
        | OP_PIPE =>
            ok ← run_on_pipe parse_command cmd1 cmd2 level c;
            if (ok : bool) then mret 0
            else
              output STDERR_FILENO ("Error: Pipe execution failed" ++ nl);;
              mret (-1)
        | OP_other => mret SHELL_EXIT
        end
  end.

End Evaluator.
End Shell.

(** ** The expansion as the specification words it

    "Scans left to right; on [$], consumes a maximal run of
    alphanumeric/underscore characters as a variable name, looks it up in
    the environment, and substitutes its value (empty string if unset);
    all other characters are copied verbatim." *)

Module ExpansionSpec.
Import Text.

Inductive piece :=
| Lit (c : ascii)        (* a character other than [$] *)
| Var (name : string).   (* [$] and the run of name characters after it *)

(** Every character of [name] is alphanumeric or an underscore. *)
Definition name_run (name : string) : Prop :=
  forallb is_name_char (list_ascii_of_string name) = true.

(** [rest] does not go on with a name character: the run before it is
    maximal. *)
Definition stops (rest : string) : Prop :=
  match rest with
  | EmptyString => True
  | String c _ => is_name_char c = false
  end.

(** The piece is within the array [var_name]: a name shorter than 128
    characters, which leaves room for its terminator. *)
Definition short (p : piece) : bool :=
  match p with
  | Lit _ => true
  | Var name => (String.length name <? 128)%nat
  end.

Inductive reads : string → list piece → Prop :=
| reads_end : reads "" []
| reads_lit c s ps :
    c ≠ "$"%char → reads s ps → reads (String c s) (Lit c :: ps)
| reads_var name s ps :
    name_run name → stops s → reads s ps →
    reads (String "$" (name ++ s)) (Var name :: ps).

Definition value_of (env : gmap string string) (p : piece) : string :=
  match p with
  | Lit c => String c ""
  | Var name => default "" (getenv env name)
  end.

Fixpoint render (env : gmap string string) (ps : list piece) : string :=
  match ps with
  | [] => ""
  | p :: ps' => value_of env p ++ render env ps'
  end.

End ExpansionSpec.

(** ** Vocabulary of the statements *)

Module Statements.
Import Text OS Shell.

(** The characters [remove_quotes] leaves out. *)
Definition is_quote (c : ascii) : bool := Ascii.eqb c "'" || Ascii.eqb c "034".

(** [fork] has created a child with pid [pid], the child has ended with
    status [s], and the parent goes on in [w']. *)
Definition forks (child : M Empty_set) (w : World) (pid : Z) (s : wait_status)
    (w' : World) : Prop :=
  fork child w = Ret pid w' ∧ pid ≠ -1 ∧ children w' !! pid = Some s.

(** The next [n] calls that ask the machine do not fail. *)
Definition answers_ok (n : nat) (w : World) : Prop :=
  ∀ a, a ∈ take n (oracle w) → ∀ e, a ≠ Error e.

(** The world after [open(path, flags)] has succeeded and the new
    descriptor has been moved onto the descriptors [targets]. *)
Definition redirected (targets : list Z) (path : string) (flags : Z) (w : World)
  : World :=
  mkWorld (env w)
    (foldr (λ fd table, <[fd := File (next_id w) path flags]> table) (fds w) targets)
    (children w)
    (trace w ++ [EvOpen path flags (Some (next_id w))])
    (tl (oracle w)) (Pos.succ (next_id w)) (errno w).

(** [w'] has the environment and the children of [w], and the same
    descriptors except for those in [changed]. *)
Definition same_but (changed : list Z) (w w' : World) : Prop :=
  env w' = env w ∧ children w' = children w ∧
  ∀ fd, fd ∉ changed → fds w' !! fd = fds w !! fd.

(** A status that a process can leave: an exit code is in 0..255. *)
Definition real_status (s : wait_status) : Prop :=
  match s with
  | Exited code => 0 ≤ code ≤ 255
  | Signaled _ => True
  end.

(** Whenever [m] ends the process, it does so with a status a process
    can leave. *)
Definition halts_real {A} (m : M A) : Prop :=
  ∀ w s w', m w = Halt s w' → real_status s.

(** The test of [parse_simple] for an internal command. *)
Definition is_builtin (word : string) : bool :=
  String.eqb word "cd" || String.eqb word "pwd" ||
  String.eqb word "exit" || String.eqb word "quit".

Section WithParser.
Context {P : Parser}.

(** The call is made at the top, or with a father. *)
Definition well_called (level : Z) (father : command_t) : Prop :=
  is_null father && negb (level =? 0) = false.

(** [s->verb->string], NULL as soon as one of the pointers is. *)
Definition verb_string (s : option (simple_command_t word_t)) : option string :=
  match s with
  | Some c => match verb c with Some v => word_string v | None => None end
  | None => None
  end.

End WithParser.

End Statements.

(** ** A parser instance and sample commands, to run the evaluator *)

Module Sample.
Import Text OS Shell.

(** A word is its own string followed by the strings of the words that
    follow it; [get_word] and [get_argv] expand nothing. *)
#[export] Instance parser : Parser := {
  word_t := list string;
  word_string w := head w;
  get_word _ w := default "" (head w);
  get_argv _ s := (default [] (verb s) ++ default [] (params s))%list;
  IO_OUT_APPEND := 1;
  IO_ERR_APPEND := 2;
  SHELL_EXIT := -100
}.

(** A process with the terminal on its three standard descriptors. *)
Definition boot (e : gmap string string) (answers : list answer) : World :=
  mkWorld e {[ 0 := Terminal; 1 := Terminal; 2 := Terminal ]} ∅ [] answers 1 0.

Definition simple (v : string) (ps : list string) : simple_command_t word_t :=
  mk_simple_command (Some [v]) (match ps with [] => None | _ => Some ps end)
    None None None 0.

Definition leaf (s : simple_command_t word_t) : command_t :=
  Command OP_NONE NULL NULL (Some s).

Definition node (op : operator_t) (l r : command_t) : command_t :=
  Command op l r None.

(** [false & true] *)
Definition false_and_true : command_t :=
  node OP_PARALLEL (leaf (simple "false" [])) (leaf (simple "true" [])).

(** [false | grep x] *)
Definition false_into_grep : command_t :=
  node OP_PIPE (leaf (simple "false" [])) (leaf (simple "grep" ["x"])).

(** [ls &> out.txt] *)
Definition ls_both : simple_command_t word_t :=
  mk_simple_command (Some ["ls"]) None None (Some ["out.txt"]) (Some ["out.txt"]) 0.

(** [pwd > /no/such/dir/out] *)
Definition pwd_to_missing_dir : simple_command_t word_t :=
  mk_simple_command (Some ["pwd"]) None None (Some ["/no/such/dir/out"]) None 0.

(** [pwd < f] *)
Definition pwd_from_file : simple_command_t word_t :=
  mk_simple_command (Some ["pwd"]) None (Some ["f"]) None None 0.

(** [pwd > out.txt] *)
Definition pwd_to_out : simple_command_t word_t :=
  mk_simple_command (Some ["pwd"]) None None (Some ["out.txt"]) None 0.

(** [cat < missing > out.txt] *)
Definition cat_missing_to_out : simple_command_t word_t :=
  mk_simple_command (Some ["cat"]) None (Some ["missing"]) (Some ["out.txt"]) None 0.

(** [A= > out.txt] *)
Definition assign_empty_to_out : simple_command_t word_t :=
  mk_simple_command (Some ["A="]) None None (Some ["out.txt"]) None 0.

End Sample.

(** ** Vocabulary of the further properties *)

Module Further.
Import Text OS Shell Statements.

(** The answer says that the call fails. *)
Definition is_error (a : answer) : bool :=
  match a with Error _ => true | _ => false end.

(** The machine's next answer is a failure. *)
Definition next_fails (w : World) : bool := is_error (hd Done (oracle w)).


(** [m] always returns to its caller. *)
Definition returns {A} (m : M A) : Prop :=
  ∀ w, ∃ a w', m w = Ret a w'.


(** [w'] is [w] but for the trace, the oracle and [errno]: the process
    has the same environment, descriptors and children. *)
Definition same_process (w w' : World) : Prop :=
  env w' = env w ∧ fds w' = fds w ∧ children w' = children w.




Section WithParser.
Context {P : Parser}.

(** The directory [shell_cd] decides to go to: the argument without its
    quotes when there is one that is not empty, else [HOME] as it is. *)
Definition cd_target (e : gmap string string) (dir : option word_t)
  : option string :=
  match dir with
  | Some d =>
      match word_string d with
      | Some (String c s) => remove_quotes (Some (String c s))
      | _ => getenv e "HOME"
      end
  | None => getenv e "HOME"
  end.

(** The case in which [shell_cd] gives [free] the string of [getenv]:
    its argument is the empty string, and [HOME] is set. *)
Definition cd_frees_home (e : gmap string string) (dir : option word_t) : bool :=
  match dir with
  | Some d =>
      match word_string d with
      | Some EmptyString =>
          match getenv e "HOME" with Some _ => true | None => false end
      | _ => false
      end
  | None => false
  end.





(** The command has no redirection. *)
Definition no_targets (s : simple_command_t word_t) : Prop :=
  in_ s = None ∧ out s = None ∧ err s = None.


End WithParser.

End Further.

(** * Properties *)

Import Text OS Shell Statements.

(** ** Strings *)

#[local] Arguments String.append !_ _ / : simpl nomatch.

Lemma string_app_nil_r (s : string) : s ++ "" = s.
Proof. induction s as [|c s IH]; simpl; [reflexivity | now rewrite IH]. Qed.

Lemma string_app_assoc (a b c : string) : (a ++ b) ++ c = a ++ (b ++ c).
Proof. induction a as [|x a IH]; simpl; [reflexivity | now rewrite IH]. Qed.

(** ** Quote stripping *)

Lemma remove_quotes_loop_output ptr output :
  remove_quotes_loop ptr output = output ++ remove_quotes_loop ptr "".
Proof.
  revert output. induction ptr as [|c rest IH]; intros output; simpl.
  - now rewrite string_app_nil_r.
  - destruct (negb (Ascii.eqb c "'") && negb (Ascii.eqb c "034")).
    + rewrite IH, (IH (String c "")), string_app_assoc. reflexivity.
    + apply IH.
Qed.

Lemma remove_quotes_loop_cons c rest :
  remove_quotes_loop (String c rest) "" =
  if is_quote c then remove_quotes_loop rest ""
  else String c (remove_quotes_loop rest "").
Proof.
  unfold is_quote. simpl.
  destruct (Ascii.eqb c "'"), (Ascii.eqb c "034"); simpl; try reflexivity.
  now rewrite remove_quotes_loop_output.
Qed.

Lemma remove_quotes_loop_no_quote ptr c :
  is_quote c = true → strchr (remove_quotes_loop ptr "") c = false.
Proof.
  intros Hq. induction ptr as [|x rest IH]; [reflexivity|].
  rewrite remove_quotes_loop_cons.
  destruct (is_quote x) eqn:Hx; [exact IH|].
  simpl. rewrite IH, orb_false_r.
  destruct (Ascii.eqb_spec x c) as [->|]; [congruence | reflexivity].
Qed.

Lemma remove_quotes_loop_fixed ptr :
  strchr ptr "'" = false → strchr ptr "034" = false →
  remove_quotes_loop ptr "" = ptr.
Proof.
  induction ptr as [|x rest IH]; [reflexivity|].
  simpl strchr. intros [H1 H1']%orb_false_elim [H2 H2']%orb_false_elim.
  rewrite remove_quotes_loop_cons. unfold is_quote.
  rewrite H1, H2. simpl. now rewrite IH.
Qed.

Lemma remove_quotes_loop_length ptr :
  (String.length (remove_quotes_loop ptr "") <= String.length ptr)%nat.
Proof.
  induction ptr as [|x rest IH]; [reflexivity|].
  rewrite remove_quotes_loop_cons. destruct (is_quote x); simpl; lia.
Qed.

(** C10. Quote stripping is idempotent and does not expand: for every
    non-null [input], stripping the result again leaves it as it is, the
    result holds neither a single nor a double quote, and it is at most as
    long as [input]. *)
Theorem remove_quotes_idempotent (input : string) :
  ∃ result,
    remove_quotes (Some input) = Some result ∧
    remove_quotes (remove_quotes (Some input)) = remove_quotes (Some input) ∧
    strchr result "'" = false ∧ strchr result "034" = false ∧
    (String.length result <= String.length input)%nat.
Proof.
  exists (remove_quotes_loop input ""). simpl.
  assert (Hs : strchr (remove_quotes_loop input "") "'" = false)
    by (now apply remove_quotes_loop_no_quote).
  assert (Hd : strchr (remove_quotes_loop input "") "034" = false)
    by (now apply remove_quotes_loop_no_quote).
  repeat split; try assumption.
  - now rewrite remove_quotes_loop_fixed.
  - apply remove_quotes_loop_length.
Qed.

Example remove_quotes_ex :
  remove_quotes (Some ("'a b' " ++ String "034" ("c" ++ String "034" "")))
  = Some "a b c".
Proof. reflexivity. Qed.

(** ** Variable expansion *)

Import ExpansionSpec.

Example expand_variables_ex :
  expand_variables {[ "HOME" := "/root" ]} (Some "cd $HOME/x$Y.$")
  = Fits (Some "cd /root/x.").
Proof. reflexivity. Qed.

Example reads_ex :
  reads "a$B_1-$" [Lit "a"; Var "B_1"; Lit "-"; Var ""].
Proof.
  apply reads_lit; [done|]. apply (reads_var "B_1" "-$"); [done..|].
  apply reads_lit; [done|]. apply (reads_var "" ""); [done..|]. constructor.
Qed.

Lemma string_length_app (a b : string) :
  String.length (a ++ b) = (String.length a + String.length b)%nat.
Proof. induction a as [|x a IH]; simpl; [reflexivity | now rewrite IH]. Qed.

(** The inner loop on a run of name characters: it copies the run when
    the array has room for it, and writes past the array otherwise. *)
Lemma scan_name_run name rest var_name :
  name_run name → stops rest → (String.length var_name <= 128)%nat →
  scan_name (name ++ rest) var_name
  = if (String.length (var_name ++ name) <=? 128)%nat
    then Fits (var_name ++ name, rest) else Overrun.
Proof.
  unfold name_run. revert var_name.
  induction name as [|c name IH]; simpl; intros var_name Hn Hr Hlen.
  - rewrite string_app_nil_r.
    destruct (Nat.leb_spec (String.length var_name) 128) as [_|]; [|lia].
    destruct rest as [|x rest]; simpl in *; [done | now rewrite Hr].
  - apply andb_prop in Hn as [Hc Hn]. rewrite Hc.
    rewrite string_length_app. simpl.
    destruct (Nat.ltb_spec (String.length var_name) 128) as [Hlt|Hge].
    + rewrite IH; [|done|done|rewrite string_length_app; simpl; lia].
      rewrite string_app_assoc. simpl.
      rewrite !string_length_app. simpl.
      replace (String.length var_name + 1 + String.length name)%nat
        with (String.length var_name + S (String.length name))%nat by lia.
      reflexivity.
    + destruct (Nat.leb_spec (String.length var_name + S (String.length name)) 128);
        [lia | reflexivity].
Qed.

Lemma expand_loop_lit e c rest output :
  c ≠ "$"%char →
  expand_loop e (String c rest) output
  = if (String.length output <? PATH_MAX)%nat
    then expand_loop e rest (output ++ String c "")
    else Overrun.
Proof.
  intros Hc. simp expand_loop.
  destruct (Ascii.eqb_spec c "$") as [|_]; [done|]. reflexivity.
Qed.

Lemma expand_loop_var e rest output name ptr' :
  scan_name rest "" = Fits (name, ptr') →
  expand_loop e (String "$" rest) output
  = if (String.length name <? 128)%nat then
      match getenv e name with
      | Some value =>
          if (String.length output + String.length value <? PATH_MAX)%nat
          then expand_loop e ptr' (output ++ value)
          else Overrun
      | None => expand_loop e ptr' output
      end
    else Overrun.
Proof.
  intros H. simp expand_loop. simpl. revert H.
  generalize (scan_name rest ""). by intros r ->.
Qed.

Lemma expand_loop_var_overrun e rest output :
  scan_name rest "" = Overrun →
  expand_loop e (String "$" rest) output = Overrun.
Proof.
  intros H. simp expand_loop. simpl. revert H.
  generalize (scan_name rest ""). by intros r ->.
Qed.

Lemma render_var_length (e : gmap string string) name ps :
  String.length (render e (Var name :: ps))
  = (String.length (default "" (getenv e name)) + String.length (render e ps))%nat.
Proof. simpl. apply string_length_app. Qed.

(** Within the two arrays the loop does what the reading says: with
    every name shorter than 128 characters and a result shorter than
    [PATH_MAX], it yields the output so far followed by the rendering. *)
Lemma expand_loop_fits (e : gmap string string) ptr ps :
  reads ptr ps → forallb short ps = true →
  ∀ output,
    (String.length output + String.length (render e ps) < PATH_MAX)%nat →
    expand_loop e ptr output = Fits (output ++ render e ps).
Proof.
  induction 1 as [|c s ps Hc H IH|name s ps Hn Hs H IH]; intros Hshort output Hlen.
  - simp expand_loop. simpl in *. rewrite string_app_nil_r.
    by destruct (Nat.ltb_spec (String.length output) PATH_MAX); [|lia].
  - rewrite expand_loop_lit by done. simpl in Hshort, Hlen.
    destruct (Nat.ltb_spec (String.length output) PATH_MAX); [|lia].
    rewrite IH; [|done|rewrite string_length_app; simpl; lia].
    by rewrite string_app_assoc.
  - simpl in Hshort. apply andb_prop in Hshort as [Hname Hshort].
    apply Nat.ltb_lt in Hname.
    rewrite render_var_length in Hlen.
    rewrite (expand_loop_var e (name ++ s) output name s).
    2:{ rewrite (scan_name_run name s "") by (done || (simpl; lia)). simpl.
        by destruct (Nat.leb_spec (String.length name) 128); [|lia]. }
    destruct (Nat.ltb_spec (String.length name) 128); [|lia].
    simpl. destruct (getenv e name) as [value|]; simpl in *.
    + destruct (Nat.ltb_spec (String.length output + String.length value) PATH_MAX);
        [|lia].
      rewrite IH; [|done|rewrite string_length_app; lia].
      by rewrite string_app_assoc.
    + by apply IH.
Qed.

(** Outside them it has no defined result: a name of 128 characters or
    more, or a result of [PATH_MAX] characters or more, takes an access
    out of its array. *)
Lemma expand_loop_overruns (e : gmap string string) ptr ps :
  reads ptr ps →
  ∀ output,
    forallb short ps = false ∨
    (PATH_MAX <= String.length output + String.length (render e ps))%nat →
    expand_loop e ptr output = Overrun.
Proof.
  induction 1 as [|c s ps Hc H IH|name s ps Hn Hs H IH]; intros output Hout.
  - simp expand_loop. simpl in Hout. destruct Hout as [|Hlen]; [done|].
    by destruct (Nat.ltb_spec (String.length output) PATH_MAX); [lia|].
  - rewrite expand_loop_lit by done.
    destruct (Nat.ltb_spec (String.length output) PATH_MAX); [|done].
    apply IH. simpl in Hout. destruct Hout as [|Hlen]; [by left|right].
    rewrite string_length_app. simpl. lia.
  - rewrite render_var_length in Hout. simpl in Hout.
    pose proof (scan_name_run name s "" Hn Hs) as Hscan. simpl in Hscan.
    destruct (Nat.leb_spec (String.length name) 128) as [Hle|Hgt].
    2:{ apply expand_loop_var_overrun. apply Hscan. lia. }
    rewrite (expand_loop_var e (name ++ s) output name s) by (apply Hscan; lia).
    destruct (Nat.ltb_spec (String.length name) 128) as [Hlt|]; [|done].
    simpl in Hout. destruct (getenv e name) as [value|]; simpl in Hout.
    + destruct (Nat.ltb_spec (String.length output + String.length value) PATH_MAX);
        [|done].
      apply IH. destruct Hout as [|Hlen]; [by left|right].
      rewrite string_length_app. lia.
    + apply IH. destruct Hout as [|Hlen]; [by left | by right].
Qed.

(** Every string has a reading. *)
Lemma name_split (s : string) :
  ∃ name rest, s = name ++ rest ∧ name_run name ∧ stops rest.
Proof.
  unfold name_run. induction s as [|c s (name & rest & -> & Hn & Hr)].
  - by exists "", "".
  - destruct (is_name_char c) eqn:Hc.
    + exists (String c name), rest. simpl. by rewrite Hc, Hn.
    + by exists "", (String c (name ++ rest)).
Qed.

Lemma reads_total (s : string) : ∃ ps, reads s ps.
Proof.
  assert (H : ∀ n s, (String.length s <= n)%nat → ∃ ps, reads s ps).
  { clear s. induction n as [|n IH]; intros [|c s] Hlen; simpl in Hlen;
      try (exists []; constructor); try lia.
    destruct (Ascii.eqb_spec c "$") as [->|Hc].
    - destruct (name_split s) as (name & rest & -> & Hn & Hr).
      destruct (IH rest) as (ps & Hps).
      { rewrite string_length_app in Hlen. lia. }
      exists (Var name :: ps). by constructor.
    - destruct (IH s) as (ps & Hps); [lia|].
      exists (Lit c :: ps). by constructor. }
  by apply (H (String.length s)).
Qed.

(** C8 at [$] followed by a name of 128 characters and a dot, the
    variable holding [v]: the reading of the input gives [v.], and the
    code copies the 128 characters into [var_name] and leaves no room for
    the terminator that [getenv] reads up to; it has no defined result.
    A name of 127 characters is expanded. *)
Theorem expand_long_name_overruns :
  let name := string_of_list_ascii (repeat "v"%char 128) in
  let env : gmap string string := {[ name := "v" ]} in
  (reads (String "$" (name ++ ".")) [Var name; Lit "."] ∧
   render env [Var name; Lit "."] = "v." ∧
   expand_variables env (Some (String "$" (name ++ "."))) = Overrun) ∧
  expand_variables {[ string_of_list_ascii (repeat "v"%char 127) := "v" ]}
    (Some (String "$" (string_of_list_ascii (repeat "v"%char 127) ++ ".")))
  = Fits (Some "v.").
Proof.
  intros name env. split; [split; [|split]|].
  - apply reads_var; [by vm_compute | done|].
    apply reads_lit; [done | constructor].
  - vm_compute. reflexivity.
  - vm_compute. reflexivity.
  - vm_compute. reflexivity.
Qed.

(** An unset variable vanishes and the text around it stays. *)
Lemma reads_plain_text (e : gmap string string) s :
  strchr s "$" = false →
  ∃ ps, reads s ps ∧ forallb short ps = true ∧ render e ps = s.
Proof.
  induction s as [|c s IH]; simpl; intros H.
  - exists []. split; [constructor | done].
  - apply orb_false_elim in H as [Hc H]. destruct (IH H) as (ps & Hps & Hsh & Hr).
    exists (Lit c :: ps). split; [|simpl; now rewrite Hr].
    constructor; [|done]. intros ->. done.
Qed.

Lemma expand_unset env (before after : string) name :
  strchr before "$" = false → strchr after "$" = false →
  name_run name → stops after → getenv env name = None →
  (String.length name < 128)%nat →
  (String.length (before ++ after) < PATH_MAX)%nat →
  expand_variables env (Some (before ++ String "$" (name ++ after)))
  = Fits (Some (before ++ after)).
Proof.
  intros Hb Ha Hn Hs Hu Hname Hlen.
  destruct (reads_plain_text env after Ha) as (pa & Hpa & Hsa & Hra).
  assert (Hall : ∃ ps, reads (before ++ String "$" (name ++ after)) ps ∧
            forallb short ps = true ∧ render env ps = before ++ after).
  { clear Hlen. induction before as [|c b IH]; simpl in *.
    - exists (Var name :: pa). split; [now constructor|].
      simpl. rewrite Hu, Hra, Hsa. split; [|done].
      by apply andb_true_intro, conj, eq_refl; apply Nat.ltb_lt.
    - apply orb_false_elim in Hb as [Hc Hb].
      destruct (IH Hb) as (ps & Hps & Hsh & Hr).
      exists (Lit c :: ps). split; [|simpl; now rewrite Hr].
      constructor; [|done]. intros ->. done. }
  destruct Hall as (ps & Hps & Hsh & Hr).
  unfold expand_variables.
  rewrite (expand_loop_fits env _ ps Hps Hsh "") by (simpl; by rewrite Hr).
  simpl. by rewrite Hr.
Qed.

(** ** Assignments *)

Example strtok_r_ex :
  strtok_r (Some "==A==b=c") "=" "" = (Some "A", "=b=c") ∧
  strtok_r None "=" "=b=c" = (Some "b", "c") ∧
  strtok_r None "=" "" = (None, "").
Proof. repeat split. Qed.

Lemma strchr_app a b c : strchr (a ++ b) c = strchr a c || strchr b c.
Proof.
  induction a as [|x a IH]; simpl; [reflexivity|].
  now rewrite IH, orb_assoc.
Qed.

Lemma name_run_no_equals name : name_run name → strchr name "=" = false.
Proof.
  unfold name_run. induction name as [|c name IH]; simpl; [done|].
  intros [Hc Hn]%andb_prop. rewrite (IH Hn), orb_false_r.
  destruct (Ascii.eqb_spec c "=") as [->|]; [discriminate Hc | reflexivity].
Qed.

Lemma split_token_whole s c : strchr s c = false → split_token s (String c "") = (s, "").
Proof.
  induction s as [|x s IH]; simpl; [done|].
  intros [Hx Hs]%orb_false_elim.
  rewrite Ascii.eqb_sym, Hx. simpl. now rewrite IH.
Qed.

Lemma split_token_at s c rest :
  strchr s c = false →
  split_token (s ++ String c rest) (String c "") = (s, String c rest).
Proof.
  induction s as [|x s IH]; simpl.
  - intros _. now rewrite Ascii.eqb_refl.
  - intros [Hx Hs]%orb_false_elim.
    rewrite Ascii.eqb_sym, Hx. simpl. now rewrite IH.
Qed.

Lemma skip_delims_head x s c :
  Ascii.eqb x c = false → skip_delims (String x s) (String c "") = String x s.
Proof. intros Hx. simpl. now rewrite Ascii.eqb_sym, Hx. Qed.

(** The two calls of [strtok_r] in [parse_simple] on [NAME=VALUE]. *)
Lemma strtok_r_name name value :
  name ≠ "" → strchr name "=" = false →
  strtok_r (Some (name ++ String "=" value)) "=" (name ++ String "=" value)
  = (Some name, value).
Proof.
  intros Hne Hn. unfold strtok_r.
  pose proof (split_token_at name "=" value Hn) as Hsplit.
  destruct name as [|x name]; [done|]. simpl in Hn.
  apply orb_false_elim in Hn as [Hx Hn].
  change (String x name +:+ String "=" value)
    with (String x (name ++ String "=" value)) in *.
  rewrite skip_delims_head by done. now rewrite Hsplit.
Qed.

Lemma strtok_r_value value :
  value ≠ "" → strchr value "=" = false →
  strtok_r None "=" value = (Some value, "").
Proof.
  intros Hne Hv. unfold strtok_r.
  pose proof (split_token_whole value "=" Hv) as Hsplit.
  destruct value as [|x value]; [done|]. simpl in Hv.
  apply orb_false_elim in Hv as [Hx Hv].
  rewrite skip_delims_head by done. now rewrite Hsplit.
Qed.

(** Where [strtok_r] leaves [saveptr]: never before the string it was
    given, and after its start when that string is not empty. *)
Lemma skip_delims_length s delim :
  (String.length (skip_delims s delim) <= String.length s)%nat.
Proof.
  induction s as [|x s IH]; simpl; [lia|].
  destruct (strchr delim x); simpl; lia.
Qed.

Lemma split_token_length s delim :
  (String.length (split_token s delim).2 <= String.length s)%nat.
Proof.
  induction s as [|x s IH]; simpl; [lia|].
  destruct (strchr delim x); simpl; [lia|].
  destruct (split_token s delim) as [token s']. simpl in *. lia.
Qed.

Lemma strtok_r_saveptr str delim saveptr :
  let s := match str with Some s => s | None => saveptr end in
  (String.length (strtok_r str delim saveptr).2 <= String.length s)%nat ∧
  (s ≠ "" → (String.length (strtok_r str delim saveptr).2 < String.length s)%nat).
Proof.
  intros s. unfold strtok_r. fold s.
  pose proof (skip_delims_length s delim) as Hskip.
  destruct (skip_delims s delim) as [|x s'] eqn:E.
  - simpl. split; [lia|]. destruct s; [done | simpl; lia].
  - pose proof (split_token_length (String x s') delim) as Hsplit.
    destruct (split_token (String x s') delim) as [token rest].
    simpl in Hskip, Hsplit.
    destruct rest as [|y rest']; simpl in *; split; intros; lia.
Qed.

Section Assignment.
Context {P : Parser}.

(** After the two calls of [strtok_r], [word_copy] is not the pointer
    that [strdup] returned. *)
Lemma word_copy_advanced (word : string) :
  strchr word "=" = true →
  (String.length word
   - String.length (strtok_r None "=" (strtok_r (Some word) "=" word).2).2)%nat
  ≠ O.
Proof.
  intros Heq.
  assert (Hne : word ≠ "") by (intros ->; discriminate Heq).
  destruct (strtok_r_saveptr (Some word) "=" word) as [_ H1].
  destruct (strtok_r_saveptr None "=" (strtok_r (Some word) "=" word).2) as [H2 _].
  specialize (H1 Hne). simpl in H1, H2. lia.
Qed.

(** For NAME made of one or more alphanumeric/underscore characters and
    VALUE not empty and without [=]: the variable is set, and then the
    pointer is freed. *)
Lemma assignment_sets_then_frees
    (s : simple_command_t word_t) (v : word_t) (NAME VALUE : string)
    (level : Z) (father : command_t) (w : World) :
  verb s = Some v → is_Some (word_string v) →
  get_word (env w) v = NAME ++ String "=" VALUE →
  NAME ≠ "" → name_run NAME → VALUE ≠ "" → strchr VALUE "=" = false →
  parse_simple (Some s) level father w
  = Undef (with_env (<[NAME := VALUE]> (env w)) w).
Proof.
  intros Hv [str Hstr] Hword Hne Hrun Hvne Hval.
  assert (Heq : strchr (NAME ++ String "=" VALUE) "=" = true)
    by (rewrite strchr_app; simpl; apply orb_true_r).
  pose proof (word_copy_advanced _ Heq) as Hadv.
  unfold parse_simple. rewrite Hv, Hstr.
  unfold mbind at 1, M_bind at 1, get at 1. rewrite Hword, Heq.
  rewrite strtok_r_name in * by auto using name_run_no_equals.
  rewrite strtok_r_value in * by done. cbn [snd] in Hadv.
  destruct (String.length _ - String.length "")%nat as [|offset]; [done|].
  unfold setenv. rewrite (name_run_no_equals NAME Hrun), orb_false_r.
  destruct (String.eqb_spec NAME "") as [|_]; [done|].
  unfold mbind, M_bind, get. destruct (env w !! NAME); reflexivity.
Qed.

End Assignment.

Import Sample.

(** C5 at [AGE=27]: [setenv] is called and [$AGE] would expand to [27],
    but [parse_simple] then frees [word_copy], which [strtok_r] has moved
    to the end of the copy: the command has no defined outcome, it does
    not return the result of [setenv]. *)
Theorem assignment_frees_advanced_pointer :
  ∃ w', parse_simple (Some (simple "AGE=27" [])) 0 NULL (boot ∅ []) = Undef w' ∧
        env w' !! "AGE" = Some "27" ∧
        expand_variables (env w') (Some "$AGE") = Fits (Some "27").
Proof. eexists. split; [vm_compute; reflexivity|]. by split. Qed.

(** ** Descriptors and children *)

Lemma bind_ret_inv {A B} (m : M A) (f : A → M B) w b w' :
  (m ≫= f) w = Ret b w' → ∃ a w1, m w = Ret a w1 ∧ f a w1 = Ret b w'.
Proof.
  unfold mbind, M_bind. destruct (m w) as [a w1| |]; [|discriminate..].
  intros H. by exists a, w1.
Qed.

Lemma lowest_free_unused {V} (table m : gmap Z V) (fuel : nat) (n : Z) :
  (∀ k v, n ≤ k → table !! k = Some v → m !! k = Some v) →
  (size m ≤ fuel)%nat →
  table !! lowest_free table fuel n = None ∧ n ≤ lowest_free table fuel n.
Proof.
  revert m n. induction fuel as [|fuel IH]; intros m n Hm Hsize; simpl.
  - split; [|lia]. destruct (table !! n) as [v|] eqn:E; [|done].
    assert (m = ∅) as -> by (apply map_size_empty_inv; lia).
    specialize (Hm n v (Z.le_refl n) E). by rewrite lookup_empty in Hm.
  - destruct (table !! n) as [v|] eqn:E; [|split; [done | lia]].
    destruct (IH (delete n m) (n + 1)) as [Hfree Hle].
    + intros k x Hk Hx. rewrite lookup_delete_ne by lia. apply Hm; [lia | done].
    + rewrite map_size_delete_Some by (exists v; apply Hm; [lia | done]). lia.
    + split; [done | lia].
Qed.

Lemma alloc_fd_unused (table : gmap Z ofd) :
  table !! alloc_fd table = None ∧ 0 ≤ alloc_fd table.
Proof. apply (lowest_free_unused table table); [auto | lia]. Qed.

Lemma alloc_pid_unused (table : gmap Z wait_status) :
  table !! alloc_pid table = None ∧ 1 ≤ alloc_pid table.
Proof. apply (lowest_free_unused table table); [auto | lia]. Qed.

Lemma fork_created child w pid w' :
  fork child w = Ret pid w' → pid ≠ -1 →
  pid = alloc_pid (children w) ∧
  ∃ s wc, w' = resume w pid s wc.
Proof.
  unfold fork, ask. intros H Hpid.
  destruct (hd Done (oracle w)) as [| e | sig | code | t] eqn:Ha;
    try (destruct (child _) as [[] ?|s wc|wc]; [|discriminate H];
         injection H as <- <-; split; [done | by exists s, wc]).
  - injection H as <- <-. done.
  - injection H as <- <-. split; [done | by eexists _, _].
Qed.

Lemma forks_children child w pid s w' :
  forks child w pid s w' →
  children w' = <[pid := s]> (children w) ∧ children w !! pid = None ∧
  fds w' = fds w ∧ env w' = env w.
Proof.
  intros (H & Hpid & Hs).
  destruct (fork_created child w pid w' H Hpid) as (-> & s' & wc & ->).
  simpl in *. rewrite lookup_insert_eq in Hs. injection Hs as ->.
  repeat split. apply alloc_pid_unused.
Qed.

Lemma waitpid_found pid s w :
  children w !! pid = Some s →
  waitpid pid w = Ret (Some s) (with_children (delete pid (children w)) w).
Proof.
  intros H. unfold waitpid, mbind, M_bind, get, modify. rewrite H. reflexivity.
Qed.

Lemma close_returns fd w :
  ∃ r w', close fd w = Ret r w' ∧ children w' = children w ∧
          trace w' = trace w ∧ env w' = env w.
Proof.
  unfold close, mbind, M_bind, get, modify, failing.
  destruct (fds w !! fd); simpl; eauto 10.
Qed.

(** ** Composite nodes *)

Section Composite.
Context {P : Parser}.

Lemma forks_twice child1 child2 w pid1 s1 w1 pid2 s2 w2 :
  forks child1 w pid1 s1 w1 → forks child2 w1 pid2 s2 w2 →
  children w2 !! pid1 = Some s1 ∧
  delete pid1 (children w2) !! pid2 = Some s2.
Proof.
  intros H1 H2.
  destruct (forks_children _ _ _ _ _ H2) as (Hc2 & Hfresh & _).
  destruct H1 as (_ & _ & Hs1).
  assert (pid1 ≠ pid2) by (intros ->; congruence).
  rewrite Hc2. split.
  - by rewrite lookup_insert_ne.
  - rewrite lookup_delete_ne by done. apply lookup_insert_eq.
Qed.

Lemma parallel_forked
    (cmd1 cmd2 : command_t) (scmd : option (simple_command_t word_t))
    (level : Z) (father : command_t)
    (w : World) (pid1 : Z) (s1 : wait_status) (w1 : World)
    (pid2 : Z) (s2 : wait_status) (w2 : World) :
  let c := Command OP_PARALLEL cmd1 cmd2 scmd in
  well_called level father →
  is_null cmd1 = false → is_null cmd2 = false →
  forks (subshell (parse_command cmd1 (level + 1) c)) w pid1 s1 w1 →
  forks (subshell (parse_command cmd2 (level + 1) c)) w1 pid2 s2 w2 →
  parse_command c level father w
  = Ret (if WIFEXITED s1 && WIFEXITED s2 then 0 else -1)
        (with_children (delete pid2 (delete pid1 (children w2))) w2).
Proof.
  intros c Hcall Hn1 Hn2 H1 H2.
  destruct (forks_twice _ _ _ _ _ _ _ _ _ H1 H2) as (Hw1 & Hw2).
  destruct H1 as (H1 & Hp1 & _), H2 as (H2 & Hp2 & _).
  simpl. rewrite Hcall. unfold run_in_parallel. rewrite Hn1, Hn2. simpl.
  unfold mbind at 1, M_bind at 1. unfold mbind at 1, M_bind at 1.
  fold c. rewrite H1.
  destruct (Z.eqb_spec pid1 (-1)) as [|_]; [done|].
  unfold mbind at 1, M_bind at 1. rewrite H2.
  destruct (Z.eqb_spec pid2 (-1)) as [|_]; [done|].
  unfold mbind at 1, M_bind at 1. rewrite (waitpid_found pid1 s1 w2 Hw1).
  unfold mbind at 1, M_bind at 1. rewrite (waitpid_found pid2 s2) by exact Hw2.
  destruct (WIFEXITED s1 && WIFEXITED s2); reflexivity.
Qed.

Lemma fork_forks child w pid w' :
  fork child w = Ret pid w' → pid ≠ -1 → ∃ s, forks child w pid s w'.
Proof.
  intros H Hpid.
  destruct (fork_created child w pid w' H Hpid) as (_ & s & wc & ->).
  exists s. repeat split; [done..|]. simpl. apply lookup_insert_eq.
Qed.

(** A PARALLEL node that returns 0 has forked both children. *)
Lemma parallel_success_forked
    (cmd1 cmd2 : command_t) (scmd : option (simple_command_t word_t))
    (level : Z) (father : command_t) (w w' : World) :
  let c := Command OP_PARALLEL cmd1 cmd2 scmd in
  well_called level father →
  parse_command c level father w = Ret 0 w' →
  is_null cmd1 = false ∧ is_null cmd2 = false ∧
  ∃ pid1 s1 w1 pid2 s2 w2,
    forks (subshell (parse_command cmd1 (level + 1) c)) w pid1 s1 w1 ∧
    forks (subshell (parse_command cmd2 (level + 1) c)) w1 pid2 s2 w2.
Proof.
  intros c Hcall H.
  destruct (is_null cmd1) eqn:Hn1;
    [simpl in H; rewrite Hcall in H; unfold run_in_parallel in H;
     rewrite Hn1 in H; discriminate H|].
  destruct (is_null cmd2) eqn:Hn2;
    [simpl in H; rewrite Hcall in H; unfold run_in_parallel in H;
     rewrite Hn1, Hn2 in H; discriminate H|].
  split; [done|]. split; [done|].
  simpl in H. rewrite Hcall in H. unfold run_in_parallel in H.
  rewrite Hn1, Hn2 in H. simpl in H.
  unfold mbind at 1, M_bind at 1 in H. unfold mbind at 1, M_bind at 1 in H.
  fold c in H.
  destruct (fork (subshell (parse_command cmd1 (level + 1) c)) w)
    as [pid1 w1| |] eqn:F1; [|discriminate H..].
  destruct (Z.eqb_spec pid1 (-1)) as [|Hp1]; [discriminate H|].
  unfold mbind at 1, M_bind at 1 in H.
  destruct (fork (subshell (parse_command cmd2 (level + 1) c)) w1)
    as [pid2 w2| |] eqn:F2; [|discriminate H..].
  destruct (Z.eqb_spec pid2 (-1)) as [|Hp2]; [discriminate H|].
  destruct (fork_forks _ _ _ _ F1 Hp1) as [s1 Hf1].
  destruct (fork_forks _ _ _ _ F2 Hp2) as [s2 Hf2].
  by exists pid1, s1, w1, pid2, s2, w2.
Qed.

(** C7. For every PARALLEL node whose two children were forked and have
    ended, the evaluator returns 0 when both ended by exit and -1 when
    one of them was ended by a signal, whatever their exit codes; and it
    returns 0 in no other way: a node that returns 0 has forked its two
    children and both have ended by exit. *)
Theorem parallel_status
    (cmd1 cmd2 : command_t) (scmd : option (simple_command_t word_t))
    (level : Z) (father : command_t) (w : World) :
  let c := Command OP_PARALLEL cmd1 cmd2 scmd in
  let child1 := subshell (parse_command cmd1 (level + 1) c) in
  let child2 := subshell (parse_command cmd2 (level + 1) c) in
  well_called level father →
  (∀ pid1 s1 w1 pid2 s2 w2,
     is_null cmd1 = false → is_null cmd2 = false →
     forks child1 w pid1 s1 w1 → forks child2 w1 pid2 s2 w2 →
     ∃ w', parse_command c level father w
           = Ret (if WIFEXITED s1 && WIFEXITED s2 then 0 else -1) w') ∧
  (∀ w', parse_command c level father w = Ret 0 w' →
     ∃ pid1 s1 w1 pid2 s2 w2,
       forks child1 w pid1 s1 w1 ∧ forks child2 w1 pid2 s2 w2 ∧
       WIFEXITED s1 = true ∧ WIFEXITED s2 = true).
Proof.
  intros c child1 child2 Hcall. split.
  - intros pid1 s1 w1 pid2 s2 w2 Hn1 Hn2 H1 H2. eexists.
    by apply (parallel_forked cmd1 cmd2 scmd level father w pid1 s1 w1 pid2 s2 w2).
  - intros w' H.
    destruct (parallel_success_forked cmd1 cmd2 scmd level father w w' Hcall H)
      as (Hn1 & Hn2 & pid1 & s1 & w1 & pid2 & s2 & w2 & H1 & H2).
    exists pid1, s1, w1, pid2, s2, w2. split; [done|]. split; [done|].
    pose proof (parallel_forked cmd1 cmd2 scmd level father w pid1 s1 w1
                  pid2 s2 w2 Hcall Hn1 Hn2 H1 H2) as E.
    fold c in E. rewrite H in E.
    destruct (WIFEXITED s1), (WIFEXITED s2); simpl in E; done.
Qed.

(** C2, as the code has it.  For every PIPE node whose pipe was created
    and whose two children were forked and have ended, the evaluator
    returns 0 when the consumer ended by exit with status 0 and -1
    otherwise, whatever the status of the producer. *)
Theorem pipe_status
    (cmd1 cmd2 : command_t) (scmd : option (simple_command_t word_t))
    (level : Z) (father : command_t)
    (w : World) (pipefd0 pipefd1 : Z) (w0 : World)
    (pid1 : Z) (s1 : wait_status) (w1 : World)
    (pid2 : Z) (s2 : wait_status) (w2 : World) :
  let c := Command OP_PIPE cmd1 cmd2 scmd in
  well_called level father →
  pipe w = Ret (Some (pipefd0, pipefd1)) w0 →
  forks (pipe_writer pipefd0 pipefd1 (parse_command cmd1 (level + 1) c))
        w0 pid1 s1 w1 →
  forks (pipe_reader pipefd0 pipefd1 (parse_command cmd2 (level + 1) c))
        w1 pid2 s2 w2 →
  ∃ w', parse_command c level father w
        = Ret (if WIFEXITED s2 && (WEXITSTATUS s2 =? 0) then 0 else -1) w'.
Proof.
  intros c Hcall Hpipe H1 H2.
  destruct (forks_twice _ _ _ _ _ _ _ _ _ H1 H2) as (Hw1 & Hw2).
  destruct (forks_children _ _ _ _ _ H2) as (_ & Hfresh & _).
  destruct H1 as (H1 & Hp1 & _), H2 as (H2 & Hp2 & _).
  destruct (fork_created _ _ _ _ H2 Hp2) as (Hpid2 & _).
  pose proof (alloc_pid_unused (children w1)) as [_ Hpos]. rewrite <- Hpid2 in Hpos.
  simpl. rewrite Hcall. unfold run_on_pipe.
  unfold mbind at 1, M_bind at 1. unfold mbind at 1, M_bind at 1.
  rewrite Hpipe. fold c.
  unfold mbind at 1, M_bind at 1. rewrite H1.
  destruct (Z.eqb_spec pid1 (-1)) as [|_]; [done|].
  unfold mbind at 1, M_bind at 1. rewrite H2.
  destruct (Z.ltb_spec pid2 0) as [|_]; [lia|].
  destruct (close_returns pipefd0 w2) as (r3 & w3 & E3 & Hc3 & _).
  destruct (close_returns pipefd1 w3) as (r4 & w4 & E4 & Hc4 & _).
  unfold mbind at 1, M_bind at 1. rewrite E3.
  unfold mbind at 1, M_bind at 1. rewrite E4.
  unfold mbind at 1, M_bind at 1.
  rewrite (waitpid_found pid1 s1 w4) by (rewrite Hc4, Hc3; exact Hw1).
  unfold mbind at 1, M_bind at 1.
  rewrite (waitpid_found pid2 s2) by (simpl; rewrite Hc4, Hc3; exact Hw2).
  unfold mret, M_ret.
  destruct (WIFEXITED s2 && (WEXITSTATUS s2 =? 0)); eexists; reflexivity.
Qed.

End Composite.

(** [false & true]: the children exit with 1 and 0, the node returns 0. *)
Lemma parallel_status_witness :
  ∃ w', parse_command false_and_true 0 NULL
          (boot ∅ [Done; Done; Status 1; Done; Done; Status 0]) = Ret 0 w'.
Proof.
  pose proof (parallel_status (leaf (simple "false" [])) (leaf (simple "true" []))
                None 0 NULL (boot ∅ [Done; Done; Status 1; Done; Done; Status 0]))
    as H.
  destruct (H eq_refl) as [Hforked _].
  eapply (Hforked 1 (Exited 1) _ 2 (Exited 0) _).
  - reflexivity.
  - reflexivity.
  - split; [vm_compute; reflexivity|]. split; [done | reflexivity].
  - split; [vm_compute; reflexivity|]. split; [done | reflexivity].
Defined.

(** [false | grep x] with [grep] exiting with 0: the node returns 0. *)
Lemma pipe_status_witness :
  ∃ w', parse_command false_into_grep 0 NULL
          (boot ∅ [Done; Done; Done; Status 1; Done; Done; Status 0]) = Ret 0 w'.
Proof.
  eapply (pipe_status (leaf (simple "false" [])) (leaf (simple "grep" ["x"]))
            None 0 NULL _ 3 4 _ 1 (Exited 1) _ 2 (Exited 0) _).
  - reflexivity.
  - vm_compute. reflexivity.
  - split; [vm_compute; reflexivity|]. split; [done | reflexivity].
  - split; [vm_compute; reflexivity|]. split; [done | reflexivity].
Defined.

(** [true | grep x] with [grep] exiting with 3: the consumer's status is
    3, the node returns -1. *)
Lemma pipe_consumer_code_lost :
  let c := node OP_PIPE (leaf (simple "true" [])) (leaf (simple "grep" ["x"])) in
  let w := boot ∅ [Done; Done; Done; Status 0; Done; Done; Status 3] in
  ∃ w0 pid1 s1 w1 pid2 w2 w',
    pipe w = Ret (Some (3, 4)) w0 ∧
    forks (pipe_writer 3 4 (parse_command (leaf (simple "true" [])) 1 c))
          w0 pid1 s1 w1 ∧
    forks (pipe_reader 3 4 (parse_command (leaf (simple "grep" ["x"])) 1 c))
          w1 pid2 (Exited 3) w2 ∧
    parse_command c 0 NULL w = Ret (-1) w' ∧
    (-1 : Z) ≠ WEXITSTATUS (Exited 3).
Proof.
  intros c w. eexists _, 1, (Exited 0), _, 2, _, _.
  split; [vm_compute; reflexivity|].
  split; [split; [vm_compute; reflexivity | split; [done | reflexivity]]|].
  split; [split; [vm_compute; reflexivity | split; [done | reflexivity]]|].
  split; [vm_compute; reflexivity | done].
Qed.

(** ** Redirection *)

Lemma answers_ok_head n w : answers_ok (S n) w → ∀ e, hd Done (oracle w) ≠ Error e.
Proof.
  unfold answers_ok. destruct (oracle w) as [|a o]; simpl; [done|].
  intros H. apply H. left.
Qed.

Lemma answers_ok_tail n w w' :
  answers_ok (S n) w → oracle w' = tl (oracle w) → answers_ok n w'.
Proof.
  unfold answers_ok. intros H ->. destruct (oracle w) as [|a o]; simpl in *.
  - intros b. rewrite take_nil. by intros ?%elem_of_nil.
  - intros b Hb. apply H. by right.
Qed.

Lemma open_then_dup2 path flags target (k : M unit) w :
  (∀ e, hd Done (oracle w) ≠ Error e) → is_Some (fds w !! target) → 0 ≤ target →
  (fd ← open path flags;
   if fd =? -1 then k
   else dup2 fd target;; close fd;; mret tt) w
  = Ret tt (redirected [target] path flags w).
Proof.
  intros Hok [d Hd] Hpos.
  destruct (alloc_fd_unused (fds w)) as [Hfree Hfd].
  assert (Hne : alloc_fd (fds w) ≠ target) by (intros E; congruence).
  unfold open, ask, mbind, M_bind.
  destruct (hd Done (oracle w)) eqn:Ha; try (by destruct (Hok errno0)).
  all: unfold fresh_id, emit, install, modify, get, mbind, M_bind, mret, M_ret;
    simpl;
    destruct (Z.eqb_spec (alloc_fd (fds w)) (-1)) as [E|_]; [lia|];
    unfold dup2, close, modify, get, mbind, M_bind, mret, M_ret; simpl;
    rewrite lookup_insert_eq;
    destruct (Z.ltb_spec target 0) as [|_]; [lia|]; simpl;
    rewrite lookup_insert_ne by done; rewrite lookup_insert_eq;
    unfold redirected, with_fds; simpl; f_equal; f_equal;
    rewrite delete_insert_ne by done;
    rewrite delete_insert_eq; by rewrite delete_id.
Qed.

Lemma open_then_dup2_both path flags (k : M unit) w :
  (∀ e, hd Done (oracle w) ≠ Error e) →
  is_Some (fds w !! STDOUT_FILENO) → is_Some (fds w !! STDERR_FILENO) →
  (fd ← open path flags;
   if fd =? -1 then k
   else dup2 fd STDOUT_FILENO;; dup2 fd STDERR_FILENO;; close fd;; mret tt) w
  = Ret tt (redirected [STDERR_FILENO; STDOUT_FILENO] path flags w).
Proof.
  intros Hok [d1 Hd1] [d2 Hd2].
  destruct (alloc_fd_unused (fds w)) as [Hfree Hfd].
  assert (Hne1 : alloc_fd (fds w) ≠ STDOUT_FILENO) by (intros E; congruence).
  assert (Hne2 : alloc_fd (fds w) ≠ STDERR_FILENO) by (intros E; congruence).
  unfold open, ask, mbind, M_bind.
  destruct (hd Done (oracle w)) eqn:Ha; try (by destruct (Hok errno0)).
  all: unfold fresh_id, emit, install, modify, get, mbind, M_bind, mret, M_ret;
    simpl;
    destruct (Z.eqb_spec (alloc_fd (fds w)) (-1)) as [E|_]; [lia|];
    unfold dup2, close, modify, get, mbind, M_bind, mret, M_ret; simpl;
    rewrite lookup_insert_eq; simpl;
    rewrite lookup_insert_ne by done; rewrite lookup_insert_eq; simpl;
    rewrite lookup_insert_ne by done;
    rewrite lookup_insert_ne by done; rewrite lookup_insert_eq;
    unfold redirected, with_fds; simpl; f_equal; f_equal;
    rewrite !delete_insert_ne by done;
    rewrite delete_insert_eq; by rewrite delete_id.
Qed.

Section Redirection.
Context {P : Parser}.

(** C4, as the code has it.  For every SimpleCommand whose output and
    error targets are both present, whose standard output and error are
    open and for which the files open, the combined case is taken exactly
    when the two targets' strings as written, before expansion, are
    equal: then the file is opened once and that one description is put
    on both standard output and standard error; otherwise each target is
    expanded and opened on its own.  A target whose expansion does not
    stay inside the arrays of [expand_variables] leaves the behaviour
    undefined at that point. *)
Theorem combined_when_strings_equal
    (cmd : simple_command_t word_t) (wout werr : word_t) (so se : string)
    (w w1 : World) :
  out cmd = Some wout → err cmd = Some werr →
  word_string wout = Some so → word_string werr = Some se →
  redirect_input cmd w = Ret tt w1 →
  is_Some (fds w1 !! STDOUT_FILENO) → is_Some (fds w1 !! STDERR_FILENO) →
  answers_ok (if String.eqb so se then 1 else 2) w1 →
  let flags_out := get_io_flags (io_flags cmd) IO_OUT_APPEND in
  let flags_err := get_io_flags (io_flags cmd) IO_ERR_APPEND in
  handle_redirection (Some cmd) w =
  match expand_loop (env w1) so "" with
  | Overrun => Undef w1
  | Fits path_out =>
      if String.eqb so se
      then Ret tt (redirected [STDERR_FILENO; STDOUT_FILENO] path_out flags_out w1)
      else
        match expand_loop (env w1) se "" with
        | Overrun => Undef (redirected [STDOUT_FILENO] path_out flags_out w1)
        | Fits path_err =>
            Ret tt (redirected [STDERR_FILENO] path_err flags_err
                      (redirected [STDOUT_FILENO] path_out flags_out w1))
        end
  end.
Proof.
  intros Hout Herr Hso Hse Hin Hfd1 Hfd2 Hok. simpl.
  unfold handle_redirection. unfold mbind at 1, M_bind at 1. rewrite Hin.
  rewrite Hout, Herr, Hso, Hse. unfold strcmp_eq.
  unfold mbind at 1, M_bind at 1. unfold mret at 1, M_ret at 1.
  destruct (String.eqb so se).
  - unfold redirect_combined. unfold mbind at 1, M_bind at 1, get at 1.
    rewrite Hso. unfold expand_variables.
    destruct (expand_loop (env w1) so "") as [path_out|]; [|reflexivity].
    apply open_then_dup2_both; eauto using answers_ok_head.
  - unfold redirect_separate. rewrite Hout, Herr.
    unfold mbind at 1, M_bind at 1. unfold mbind at 1, M_bind at 1, get at 1.
    rewrite Hso. unfold expand_variables.
    destruct (expand_loop (env w1) so "") as [path_out|]; [|reflexivity].
    rewrite open_then_dup2; [|eauto using answers_ok_head|done|done].
    unfold mbind at 1, M_bind at 1, get at 1.
    rewrite Hse. unfold expand_variables.
    change (env (redirected _ _ _ w1)) with (env w1).
    destruct (expand_loop (env w1) se "") as [path_err|]; [|reflexivity].
    apply open_then_dup2;
      [|simpl; rewrite lookup_insert_ne by done; exact Hfd2|done].
    eapply answers_ok_head, answers_ok_tail; [exact Hok | reflexivity].
Qed.

End Redirection.

Lemma combined_when_strings_equal_witness :
  handle_redirection (Some ls_both) (boot ∅ [])
  = Ret tt (redirected [STDERR_FILENO; STDOUT_FILENO] "out.txt" 577 (boot ∅ [])).
Proof.
  apply (combined_when_strings_equal ls_both ["out.txt"] ["out.txt"]
           "out.txt" "out.txt" (boot ∅ []) (boot ∅ [])).
  - reflexivity.
  - reflexivity.
  - reflexivity.
  - reflexivity.
  - reflexivity.
  - exists Terminal. reflexivity.
  - exists Terminal. reflexivity.
  - intros a Ha. simpl in Ha. by apply elem_of_nil in Ha.
Defined.

(** [ls > $A 2> $B] where both variables hold [log]: the two targets
    expand to the same string, and yet the file is opened twice and the
    two standard descriptors get two descriptions. *)
Lemma same_expansion_opened_twice :
  let cmd := mk_simple_command (Some ["ls"]) None None (Some ["$A"]) (Some ["$B"]) 0 in
  let e : gmap string string := {[ "A" := "log"; "B" := "log" ]} in
  expand_variables e (word_string ["$A"]) = expand_variables e (word_string ["$B"]) ∧
  ∃ w', handle_redirection (Some cmd) (boot e []) = Ret tt w' ∧
        trace w' = [EvOpen "log" 577 (Some 1%positive);
                    EvOpen "log" 577 (Some 2%positive)] ∧
        fds w' !! STDOUT_FILENO = Some (File 1 "log" 577) ∧
        fds w' !! STDERR_FILENO = Some (File 2 "log" 577).
Proof.
  intros cmd e. split; [reflexivity|].
  eexists. split; [vm_compute; reflexivity|]. repeat split.
Qed.

(** ** Conditional nodes *)

Section Conditional.
Context {P : Parser}.

Lemma and_left_zero cmd1 cmd2 scmd level father w w1 :
  let c := Command OP_CONDITIONAL_ZERO cmd1 cmd2 scmd in
  well_called level father →
  parse_command cmd1 (level + 1) c w = Ret 0 w1 →
  parse_command c level father w = parse_command cmd2 (level + 1) c w1.
Proof.
  intros c Hcall H. simpl. rewrite Hcall.
  unfold mbind, M_bind. fold c. by rewrite H.
Qed.

(** What the code does after a left subtree that failed: the right one
    is not evaluated, and the node returns 0. *)
Lemma and_left_nonzero cmd1 cmd2 scmd level father w r w1 :
  let c := Command OP_CONDITIONAL_ZERO cmd1 cmd2 scmd in
  well_called level father →
  parse_command cmd1 (level + 1) c w = Ret r w1 → r ≠ 0 →
  parse_command c level father w = Ret 0 w1.
Proof.
  intros c Hcall H Hr. simpl. rewrite Hcall.
  unfold mbind, M_bind. fold c. rewrite H.
  by destruct (Z.eqb_spec r 0).
Qed.

End Conditional.

(** C1 at [false && touch made]: the left subtree yields 1, the right one
    is not evaluated, and the node yields 0, which is not the status of
    the left subtree. *)
Theorem and_failed_left_returns_zero :
  let l := leaf (simple "false" []) in
  let c := node OP_CONDITIONAL_ZERO l (leaf (simple "touch" ["made"])) in
  let w := boot ∅ [Done; Status 1] in
  ∃ w1, parse_command l 1 c w = Ret 1 w1 ∧
        parse_command c 0 NULL w = Ret 0 w1.
Proof. intros l c w. eexists. split; vm_compute; reflexivity. Qed.

(** ** Builtins *)

(** C3 at [pwd > /no/such/dir/out], run by the shell itself: the open
    fails, and the process that runs the builtin, the shell, exits with 1. *)
Theorem builtin_redirect_failure_exits :
  ∃ w', parse_command (leaf pwd_to_missing_dir) 0 NULL (boot ∅ [Error ENOENT])
        = Halt (Exited 1) w'.
Proof. eexists. vm_compute. reflexivity. Qed.

(** C6 at [pwd < f]: after the builtin has returned, standard output and
    error are what they were and standard input is the file. *)
Theorem builtin_input_redirect_stays :
  let w := boot ∅ [] in
  ∃ w', parse_command (leaf pwd_from_file) 0 NULL w = Ret 0 w' ∧
        fds w !! STDIN_FILENO = Some Terminal ∧
        fds w' !! STDIN_FILENO = Some (File 1 "f" O_RDONLY) ∧
        fds w' !! STDOUT_FILENO = fds w !! STDOUT_FILENO ∧
        fds w' !! STDERR_FILENO = fds w !! STDERR_FILENO.
Proof. intros w. eexists. split; [vm_compute; reflexivity|]. repeat split. Qed.

(** ** The statuses children leave *)

Lemma halts_real_bind {A B} (m : M A) (f : A → M B) :
  halts_real m → (∀ a, halts_real (f a)) → halts_real (m ≫= f).
Proof.
  intros Hm Hf w s w'. unfold mbind, M_bind.
  destruct (m w) as [a w1|s1 w1|w1] eqn:E; [apply Hf| |discriminate].
  intros [= <- <-]. by apply Hm in E.
Qed.

Lemma halts_real_returns {A} (m : M A) :
  (∀ w, ∃ a w', m w = Ret a w') → halts_real m.
Proof. intros H w s w' E. destruct (H w) as (a & w1 & E1). congruence. Qed.

Lemma halts_real_exit {A} code : halts_real (exit (A := A) code).
Proof.
  intros w s w' [= <- <-]. simpl.
  change 255 with (Z.ones 8) at 1 2. rewrite Z.land_ones by lia.
  pose proof (Z.mod_pos_bound code (2 ^ 8)). lia.
Qed.

Lemma halts_real_open path flags : halts_real (open path flags).
Proof.
  apply halts_real_returns. intros w. unfold open, ask, mbind, M_bind.
  destruct (hd Done (oracle w)); by eexists _, _.
Qed.

Lemma halts_real_dup2 oldfd newfd : halts_real (dup2 oldfd newfd).
Proof.
  apply halts_real_returns. intros w. unfold dup2, mbind, M_bind, get.
  destruct (fds w !! oldfd); [destruct (newfd <? 0)|]; by eexists _, _.
Qed.

Lemma halts_real_close fd : halts_real (close fd).
Proof.
  apply halts_real_returns. intros w.
  destruct (close_returns fd w) as (r & w' & E & _). by exists r, w'.
Qed.

Lemma halts_real_perror_exit {A} prefix code :
  halts_real (perror prefix;; exit (A := A) code).
Proof.
  apply halts_real_bind; [|intros _; apply halts_real_exit].
  apply halts_real_returns. intros w. by eexists _, _.
Qed.

Lemma halts_real_open_then_dup2 path flags prefix targets :
  halts_real
    (fd ← open path flags;
     if fd =? -1 then perror prefix;; exit EXIT_FAILURE
     else foldr (λ target rest, dup2 fd target;; rest)
                (close fd;; mret tt) targets).
Proof.
  apply halts_real_bind; [apply halts_real_open|]. intros fd.
  destruct (fd =? -1); [apply halts_real_perror_exit|].
  induction targets as [|t ts IH]; simpl.
  - apply halts_real_bind; [apply halts_real_close|].
    intros _. apply halts_real_returns. intros w. by eexists _, _.
  - apply halts_real_bind; [apply halts_real_dup2 | intros _; exact IH].
Qed.

Section Statuses.
Context {P : Parser}.

Lemma halts_real_redirect_input cmd : halts_real (redirect_input cmd).
Proof.
  unfold redirect_input. destruct (in_ cmd) as [win|];
    [|by apply halts_real_returns; intros w; eexists _, _].
  intros w. unfold mbind at 1, M_bind at 1, get at 1.
  destruct (expand_variables (env w) (word_string win)) as [[p|]|];
    [|discriminate..].
  apply (halts_real_open_then_dup2 p O_RDONLY _ [STDIN_FILENO]).
Qed.

Lemma halts_real_redirect_combined cmd wout :
  halts_real (redirect_combined cmd wout).
Proof.
  intros w. unfold redirect_combined. unfold mbind at 1, M_bind at 1, get at 1.
  destruct (expand_variables (env w) (word_string wout)) as [[p|]|];
    [|discriminate..].
  apply (halts_real_open_then_dup2 p _ _ [STDOUT_FILENO; STDERR_FILENO]).
Qed.

Lemma halts_real_redirect_separate cmd : halts_real (redirect_separate cmd).
Proof.
  unfold redirect_separate. apply halts_real_bind; [|intros _].
  - destruct (out cmd) as [wout|];
      [|by apply halts_real_returns; intros w; eexists _, _].
    intros w. unfold mbind at 1, M_bind at 1, get at 1.
    destruct (expand_variables (env w) (word_string wout)) as [[p|]|].
    + apply (halts_real_open_then_dup2 p _ _ [STDOUT_FILENO]).
    + apply halts_real_perror_exit.
    + discriminate.
  - destruct (err cmd) as [werr|];
      [|by apply halts_real_returns; intros w; eexists _, _].
    intros w. unfold mbind at 1, M_bind at 1, get at 1.
    destruct (expand_variables (env w) (word_string werr)) as [[p|]|];
      [|discriminate..].
    apply (halts_real_open_then_dup2 p _ _ [STDERR_FILENO]).
Qed.

Lemma halts_real_handle_redirection cmd : halts_real (handle_redirection cmd).
Proof.
  destruct cmd as [cmd|];
    [|by apply halts_real_returns; intros w; eexists _, _].
  unfold handle_redirection.
  apply halts_real_bind; [apply halts_real_redirect_input | intros _].
  destruct (out cmd) as [wout|]; [|apply halts_real_redirect_separate].
  destruct (err cmd) as [werr|]; [|apply halts_real_redirect_separate].
  apply halts_real_bind.
  - intros w s w'. unfold strcmp_eq.
    by destruct (word_string wout), (word_string werr).
  - intros [|]; [apply halts_real_redirect_combined
                |apply halts_real_redirect_separate].
Qed.

Lemma halts_real_execvp file argv : halts_real (execvp file argv).
Proof.
  unfold execvp. destruct (String.eqb file "");
    [by apply halts_real_returns; intros w; eexists _, _|].
  intros w s w'. unfold mbind, M_bind, ask, get, emit, modify, failing.
  destruct (hd Done (oracle w)) as [|e|sig|code|t]; simpl;
    try discriminate; intros [= <- <-]; try done;
    apply (halts_real_exit (A := Z) _ w _ w eq_refl).
Qed.

Lemma halts_real_external s word : halts_real (external s word).
Proof.
  unfold external.
  apply halts_real_bind; [apply halts_real_handle_redirection | intros _].
  apply halts_real_bind;
    [by apply halts_real_returns; intros w; eexists _, _ | intros e].
  apply halts_real_bind; [apply halts_real_execvp | intros _].
  apply halts_real_bind;
    [by apply halts_real_returns; intros w; eexists _, _ | intros _].
  apply halts_real_exit.
Qed.

Lemma fork_status_real child w pid w' :
  halts_real child → fork child w = Ret pid w' → pid ≠ -1 →
  ∃ s, children w' !! pid = Some s ∧ real_status s.
Proof.
  intros Hchild H Hpid. unfold fork, ask in H.
  destruct (hd Done (oracle w)) as [| e | sig | code | t] eqn:Ha;
    try (destruct (child _) as [[] ?|s wc|wc] eqn:E; [|discriminate H];
         injection H as <- <-; exists s; simpl; rewrite lookup_insert_eq;
         split; [done | by apply Hchild in E]).
  - injection H as <- <-. done.
  - injection H as <- <-. exists (Signaled sig). simpl.
    by rewrite lookup_insert_eq.
Qed.

(** What [parse_simple] returns for an external program is in 0..255. *)
Lemma external_result_range
    (s : simple_command_t word_t) (v : word_t) (level : Z) (father : command_t)
    (w : World) (r : Z) (w' : World) :
  verb s = Some v → is_Some (word_string v) →
  strchr (get_word (env w) v) "=" = false →
  is_builtin (get_word (env w) v) = false →
  parse_simple (Some s) level father w = Ret r w' →
  0 ≤ r ≤ 255.
Proof.
  intros Hv [str Hstr] Heq Hb H.
  unfold parse_simple in H. rewrite Hv, Hstr in H.
  unfold mbind at 1, M_bind at 1, get at 1 in H.
  unfold is_builtin in Hb. rewrite Heq, Hb in H.
  apply bind_ret_inv in H as (pid & w1 & Hfork & H).
  destruct (Z.eqb_spec pid (-1)) as [|Hpid]; [by injection H as <- _|].
  destruct (fork_status_real _ _ _ _ (halts_real_external s _) Hfork Hpid)
    as (st & Hst & Hreal).
  unfold mbind at 1, M_bind at 1 in H. rewrite (waitpid_found pid st w1 Hst) in H.
  destruct st as [code|sig]; simpl in H; injection H as <- _; [done | lia].
Qed.

End Statuses.

(** ** Null verbs *)

Section NullVerb.
Context {P : Parser}.

(** C9, as the code has it.  For every simple command that is null, or
    whose verb is null, or whose verb has a null string, the executor
    returns -1 and does nothing else: no builtin is dispatched, no child
    forked.  And -1 is the exit code of no child: whatever the executor
    returns for an external program is in 0..255. *)
Theorem null_verb_rejected
    (s : option (simple_command_t word_t)) (level : Z) (father : command_t)
    (w : World) :
  verb_string s = None →
  parse_simple s level father w = Ret (-1) w ∧
  ∀ (s' : simple_command_t word_t) (v : word_t) (w0 : World) (r : Z) (w0' : World),
    verb s' = Some v → is_Some (word_string v) →
    strchr (get_word (env w0) v) "=" = false →
    is_builtin (get_word (env w0) v) = false →
    parse_simple (Some s') level father w0 = Ret r w0' →
    0 ≤ r ≤ 255.
Proof.
  intros H. split.
  - unfold parse_simple. destruct s as [c|]; [|done]. simpl in H.
    destruct (verb c) as [v|]; [|done]. by rewrite H.
  - intros s' v w0 r w0'. apply external_result_range.
Qed.

End NullVerb.

(** A null verb returns -1; [sleep 1], ended by a signal, returns 1. *)
Lemma null_verb_rejected_witness :
  parse_simple (Some (mk_simple_command None None None None None 0)) 0 NULL
    (boot ∅ []) = Ret (-1) (boot ∅ []) ∧
  ∃ w', parse_simple (Some (simple "sleep" ["1"])) 0 NULL
          (boot ∅ [Done; Killed 9]) = Ret 1 w' ∧ 0 ≤ 1 ≤ 255.
Proof.
  destruct (null_verb_rejected
              (Some (mk_simple_command None None None None None 0))
              0 NULL (boot ∅ []) eq_refl) as [Hnull Hrange].
  split; [exact Hnull|]. eexists. split; [vm_compute; reflexivity|].
  eapply (Hrange (simple "sleep" ["1"]) ["sleep"] (boot ∅ [Done; Killed 9])).
  - reflexivity.
  - exists "sleep". reflexivity.
  - reflexivity.
  - reflexivity.
  - vm_compute. reflexivity.
Defined.

(** A verb that is the empty string is not rejected: a child is forked,
    [execvp] is tried and fails, the child prints its diagnostic and
    exits with 1, and 1 is returned. *)
Lemma empty_verb_is_run :
  ∃ w', parse_simple (Some (simple "" [])) 0 NULL (boot ∅ []) = Ret 1 w' ∧
        trace w' = [EvOutput (Some Terminal) ("Execution failed for ''" ++ nl)] ∧
        errno w' = errno (boot ∅ []) ∧
        (1 : Z) ≠ -1.
Proof. eexists. split; [vm_compute; reflexivity|]. repeat split; done. Qed.

(** ** Builtins and the descriptors of the shell *)

Lemma same_but_refl changed w : same_but changed w w.
Proof. by repeat split. Qed.

Lemma same_but_trans c1 c2 w1 w2 w3 :
  same_but c1 w1 w2 → same_but c2 w2 w3 → same_but (c1 ++ c2) w1 w3.
Proof.
  intros (He1 & Hc1 & Hf1) (He2 & Hc2 & Hf2). repeat split; [congruence..|].
  intros fd Hfd. rewrite Hf2, Hf1; [done|..]; intros ?; apply Hfd;
    apply elem_of_app; auto.
Qed.

(** A redirection that returns has changed its target only. *)
Lemma open_then_dup2_same_but path flags target prefix w w' :
  (fd ← open path flags;
   if fd =? -1 then perror prefix;; exit EXIT_FAILURE
   else dup2 fd target;; close fd;; mret tt) w = Ret tt w' →
  0 ≤ target → same_but [target] w w'.
Proof.
  intros H Hpos.
  destruct (alloc_fd_unused (fds w)) as [Hfree Hfd].
  unfold open, ask, mbind, M_bind in H.
  destruct (hd Done (oracle w)) eqn:Ha; try discriminate H.
  all: unfold fresh_id, emit, install, modify, get, mbind, M_bind, mret, M_ret in H;
    simpl in H;
    destruct (Z.eqb_spec (alloc_fd (fds w)) (-1)) as [E|_]; [lia|];
    unfold dup2, close, modify, get, mbind, M_bind, mret, M_ret in H; simpl in H;
    rewrite lookup_insert_eq in H;
    destruct (Z.ltb_spec target 0) as [|_]; [lia|]; simpl in H;
    rewrite lookup_insert in H;
    destruct (decide (target = alloc_fd (fds w))) as [Et|Et];
    [|rewrite lookup_insert_eq in H]; injection H as <-;
    (repeat split; [done..|]); simpl; intros k Hk;
    rewrite not_elem_of_cons in Hk; destruct Hk as [Hk _];
    (destruct (decide (k = alloc_fd (fds w))) as [->|Hne];
     [by rewrite lookup_delete_eq
     |rewrite lookup_delete_ne, !lookup_insert_ne by done; done]).
Qed.

Lemma open_then_dup2_both_same_but path flags prefix w w' :
  (fd ← open path flags;
   if fd =? -1 then perror prefix;; exit EXIT_FAILURE
   else dup2 fd STDOUT_FILENO;; dup2 fd STDERR_FILENO;; close fd;; mret tt) w
  = Ret tt w' →
  same_but [STDOUT_FILENO; STDERR_FILENO] w w'.
Proof.
  intros H.
  destruct (alloc_fd_unused (fds w)) as [Hfree Hfd].
  unfold open, ask, mbind, M_bind in H.
  destruct (hd Done (oracle w)) eqn:Ha; try discriminate H.
  all: unfold fresh_id, emit, install, modify, get, mbind, M_bind, mret, M_ret in H;
    simpl in H;
    destruct (Z.eqb_spec (alloc_fd (fds w)) (-1)) as [E|_]; [lia|];
    unfold dup2, close, modify, get, mbind, M_bind, mret, M_ret in H; simpl in H;
    rewrite lookup_insert_eq in H; simpl in H;
    rewrite lookup_insert in H;
    destruct (decide (STDOUT_FILENO = alloc_fd (fds w))) as [E1|E1];
    [|rewrite lookup_insert_eq in H]; simpl in H;
    rewrite lookup_insert in H;
    (destruct (decide (STDERR_FILENO = alloc_fd (fds w))) as [E2|E2];
     [|rewrite lookup_insert in H;
       destruct (decide (STDOUT_FILENO = alloc_fd (fds w))) as [E3|E3];
       [|rewrite lookup_insert_eq in H]]);
    injection H as <-;
    (repeat split; [done..|]); simpl; intros k Hk;
    rewrite !not_elem_of_cons in Hk; destruct Hk as (Hk1 & Hk2 & _);
    (destruct (decide (k = alloc_fd (fds w))) as [->|Hne];
     [by rewrite lookup_delete_eq
     |rewrite lookup_delete_ne, !lookup_insert_ne by done; done]).
Qed.

Section Builtins.
Context {P : Parser}.

Lemma redirect_input_same_but cmd w w' :
  redirect_input cmd w = Ret tt w' → same_but [STDIN_FILENO] w w'.
Proof.
  unfold redirect_input. destruct (in_ cmd) as [win|];
    [|intros [= <-]; apply same_but_refl].
  unfold mbind at 1, M_bind at 1, get at 1.
  destruct (expand_variables (env w) (word_string win)) as [[p|]|];
    [|intros [= <-]; apply same_but_refl|discriminate].
  intros H. by apply open_then_dup2_same_but in H.
Qed.

Lemma redirect_separate_same_but cmd w w' :
  redirect_separate cmd w = Ret tt w' →
  same_but [STDOUT_FILENO; STDERR_FILENO] w w'.
Proof.
  unfold redirect_separate.
  intros ([] & w1 & Hout & Herr)%bind_ret_inv.
  assert (H1 : same_but [STDOUT_FILENO] w w1).
  { destruct (out cmd) as [wout|]; [|injection Hout as <-; apply same_but_refl].
    unfold mbind at 1, M_bind at 1, get at 1 in Hout.
    destruct (expand_variables (env w) (word_string wout)) as [[p|]|];
      [|discriminate Hout..].
    by apply open_then_dup2_same_but in Hout. }
  assert (H2 : same_but [STDERR_FILENO] w1 w').
  { destruct (err cmd) as [werr|]; [|injection Herr as <-; apply same_but_refl].
    unfold mbind at 1, M_bind at 1, get at 1 in Herr.
    destruct (expand_variables (env w1) (word_string werr)) as [[p|]|];
      [|injection Herr as <-; apply same_but_refl|discriminate Herr].
    by apply open_then_dup2_same_but in Herr. }
  apply (same_but_trans _ _ _ _ _ H1 H2).
Qed.

Lemma redirect_combined_same_but cmd wout w w' :
  redirect_combined cmd wout w = Ret tt w' →
  same_but [STDOUT_FILENO; STDERR_FILENO] w w'.
Proof.
  unfold redirect_combined. unfold mbind at 1, M_bind at 1, get at 1.
  destruct (expand_variables (env w) (word_string wout)) as [[p|]|];
    [|intros [= <-]; apply same_but_refl|discriminate].
  apply open_then_dup2_both_same_but.
Qed.

(** A redirection that returns has changed the three standard
    descriptors only. *)
Lemma handle_redirection_same_but cmd w w' :
  handle_redirection cmd w = Ret tt w' →
  same_but [STDIN_FILENO; STDOUT_FILENO; STDERR_FILENO] w w'.
Proof.
  destruct cmd as [cmd|]; [|intros [= <-]; apply same_but_refl].
  unfold handle_redirection. unfold mbind at 1, M_bind at 1.
  destruct (redirect_input cmd w) as [[] w1| |] eqn:Hin; [|discriminate..].
  apply redirect_input_same_but in Hin. intros H.
  apply (same_but_trans [STDIN_FILENO] [STDOUT_FILENO; STDERR_FILENO] w w1 w' Hin).
  destruct (out cmd) as [wout|] eqn:Hout;
    [|by apply redirect_separate_same_but in H].
  destruct (err cmd) as [werr|] eqn:Herr;
    [|by apply redirect_separate_same_but in H].
  unfold mbind at 1, M_bind at 1, strcmp_eq in H.
  destruct (word_string wout) as [so|]; [|discriminate H].
  destruct (word_string werr) as [se|]; [|discriminate H].
  unfold mret at 1, M_ret at 1 in H.
  destruct (String.eqb so se).
  - by apply redirect_combined_same_but in H.
  - by apply redirect_separate_same_but in H.
Qed.

Lemma dup_open oldfd d w :
  fds w !! oldfd = Some d →
  dup oldfd w = Ret (alloc_fd (fds w))
                    (with_fds (<[alloc_fd (fds w) := d]> (fds w)) w).
Proof. intros H. unfold dup, mbind, M_bind, get. by rewrite H. Qed.

Lemma dup2_open oldfd newfd d w :
  fds w !! oldfd = Some d → 0 ≤ newfd →
  dup2 oldfd newfd w = Ret newfd (with_fds (<[newfd := d]> (fds w)) w).
Proof.
  intros H Hpos. unfold dup2, mbind, M_bind, get. rewrite H.
  by destruct (Z.ltb_spec newfd 0); [lia|].
Qed.

Lemma close_open fd d w :
  fds w !! fd = Some d → close fd w = Ret 0 (with_fds (delete fd (fds w)) w).
Proof. intros H. unfold close, mbind, M_bind, get. by rewrite H. Qed.

Lemma chdir_ret path w :
  ∃ r w', chdir path w = Ret r w' ∧ fds w' = fds w ∧ same_but [] w w'.
Proof.
  unfold chdir, ask, mbind, M_bind.
  destruct (hd Done (oracle w)); eexists _, _; (split; [reflexivity|]);
    by repeat split.
Qed.

Lemma getcwd_ret size w :
  ∃ r w', getcwd size w = Ret r w' ∧ fds w' = fds w ∧ same_but [] w w'.
Proof.
  unfold getcwd, ask, mbind, M_bind.
  destruct (hd Done (oracle w)) as [| | | |t]; try destruct (_ <? _)%nat;
    eexists _, _; (split; [reflexivity|]); by repeat split.
Qed.

Lemma free_ret target w w' : free target w = Ret tt w' → w' = w.
Proof. destruct target as [[|offset]|]; simpl; [by intros [= <-] | done..]. Qed.

Lemma cd_release_ret dir target w w' :
  cd_release dir target w = Ret tt w' → w' = w.
Proof.
  unfold cd_release. destruct dir as [d|]; [destruct (word_string d)|];
    try (by intros [= <-]). apply free_ret.
Qed.

Lemma cd_change_ret dir target_dir target w ok w' :
  cd_change dir target_dir target w = Ret ok w' →
  fds w' = fds w ∧ same_but [] w w'.
Proof.
  unfold cd_change. intros (r & w1 & E & H)%bind_ret_inv.
  destruct (chdir_ret target_dir w) as (r' & w1' & E' & Hf & He & Hc & _).
  rewrite E' in E. injection E as -> ->.
  destruct (negb (r =? 0)).
  - apply bind_ret_inv in H as ([] & w2 & Eo & H). injection Eo as <-.
    apply bind_ret_inv in H as ([] & w3 & Er & H).
    apply cd_release_ret in Er as ->. injection H as _ <-.
    repeat split; simpl; try intros; congruence.
  - apply bind_ret_inv in H as ([] & w3 & Er & H).
    apply cd_release_ret in Er as ->. injection H as _ <-.
    repeat split; simpl; try intros; congruence.
Qed.

Lemma shell_cd_ret dir w ok w' :
  shell_cd dir w = Ret ok w' → fds w' = fds w ∧ same_but [] w w'.
Proof.
  assert (Hhome :
    (e ← get env;
     match getenv e "HOME" with
     | Some target_dir => cd_change dir target_dir Foreign
     | None => output STDERR_FILENO ("cd: HOME not set" ++ nl);; mret false
     end) w = Ret ok w' → fds w' = fds w ∧ same_but [] w w').
  { unfold mbind at 1, M_bind at 1, get at 1.
    destruct (getenv (env w) "HOME") as [t|]; [apply cd_change_ret|].
    intros [= <- <-]. by repeat split. }
  unfold shell_cd. destruct dir as [d|]; [|exact Hhome].
  destruct (word_string d) as [[|c str]|]; [exact Hhome| |exact Hhome].
  unfold remove_quotes. apply cd_change_ret.
Qed.

Lemma shell_pwd_ret w :
  ∃ w', shell_pwd w = Ret tt w' ∧ fds w' = fds w ∧ same_but [] w w'.
Proof.
  unfold shell_pwd. unfold mbind at 1, M_bind at 1.
  destruct (getcwd_ret 4096 w) as (r & w1 & E & Hf & He & Hc & _). rewrite E.
  destruct r as [[|c cwd]|].
  - eexists. split; [reflexivity|]. repeat split; simpl; try intros; congruence.
  - eexists. split; [reflexivity|]. repeat split; simpl; try intros; congruence.
  - unfold mbind at 1, M_bind at 1.
    destruct (getcwd_ret 4096 w1) as (r2 & w2 & E2 & Hf2 & He2 & Hc2 & _).
    rewrite E2. destruct r2; eexists; (split; [reflexivity|]);
      repeat split; simpl; try intros; congruence.
Qed.

(** What the save and restore around a builtin achieve.  When [cd] or
    [pwd] returns in a process whose three standard descriptors are open,
    the environment, the children and every descriptor but standard
    input are as they were before. *)
Lemma builtin_keeps_all_but_stdin
    (s : simple_command_t word_t) (v : word_t) (level : Z) (father : command_t)
    (w : World) (r : Z) (w' : World) :
  verb s = Some v → is_Some (word_string v) →
  get_word (env w) v = "cd" ∨ get_word (env w) v = "pwd" →
  is_Some (fds w !! STDIN_FILENO) → is_Some (fds w !! STDOUT_FILENO) →
  is_Some (fds w !! STDERR_FILENO) →
  parse_simple (Some s) level father w = Ret r w' →
  same_but [STDIN_FILENO] w w'.
Proof.
  intros Hv [str Hstr] Hword [d0 H0] [d1 H1] [d2 H2] H.
  destruct (alloc_fd_unused (fds w)) as [Hfree1 _].
  set (s1 := alloc_fd (fds w)) in *.
  set (w1 := with_fds (<[s1 := d1]> (fds w)) w).
  destruct (alloc_fd_unused (fds w1)) as [Hfree2 _].
  set (s2 := alloc_fd (fds w1)) in *.
  set (w2 := with_fds (<[s2 := d2]> (fds w1)) w1).
  assert (Hs1 : s1 ∉ [STDIN_FILENO; STDOUT_FILENO; STDERR_FILENO]).
  { rewrite !not_elem_of_cons. repeat split; try apply not_elem_of_nil;
      intros E; rewrite E in Hfree1; congruence. }
  assert (Hs12 : s1 ≠ s2).
  { intros E. rewrite <- E in Hfree2. simpl in Hfree2.
    by rewrite lookup_insert_eq in Hfree2. }
  assert (Hs2 : s2 ∉ [STDIN_FILENO; STDOUT_FILENO; STDERR_FILENO]).
  { rewrite !not_elem_of_cons. repeat split; try apply not_elem_of_nil;
      intros E; rewrite E in Hfree2; simpl in Hfree2;
      rewrite lookup_insert_ne in Hfree2 by (intros E'; apply Hs1; rewrite E';
        rewrite !elem_of_cons; auto); congruence. }
  assert (Hdup1 : dup STDOUT_FILENO w = Ret s1 w1) by (by apply dup_open).
  assert (Hdup2 : dup STDERR_FILENO w1 = Ret s2 w2).
  { apply dup_open. simpl. rewrite lookup_insert_ne; [done|].
    intros E. apply Hs1. rewrite E, !elem_of_cons. auto. }
  assert (Hrest : ∃ w3 result w4,
    handle_redirection (Some s) w2 = Ret tt w3 ∧
    fds w4 = fds w3 ∧ same_but [] w3 w4 ∧
    (dup2 s1 STDOUT_FILENO;; dup2 s2 STDERR_FILENO;;
     close s1;; close s2;; mret result) w4 = Ret r w').
  { unfold parse_simple in H. rewrite Hv, Hstr in H.
    unfold mbind at 1, M_bind at 1, get at 1 in H.
    destruct Hword as [Hword|Hword]; rewrite Hword in H;
      cbn [strchr String.eqb Ascii.eqb Bool.eqb orb eqb] in H;
      apply bind_ret_inv in H as (? & ? & E1 & H); rewrite Hdup1 in E1;
      injection E1 as <- <-;
      apply bind_ret_inv in H as (? & ? & E2 & H); rewrite Hdup2 in E2;
      injection E2 as <- <-;
      apply bind_ret_inv in H as ([] & w3 & E3 & H);
      apply bind_ret_inv in H as (result & w4 & E4 & H);
      exists w3, result, w4; (split; [exact E3|]).
    - apply bind_ret_inv in E4 as (ok & w5 & E5 & E6).
      injection E6 as <- <-.
      by destruct (shell_cd_ret (params s) w3 ok w5 E5) as (Hf & Hsame).
    - apply bind_ret_inv in E4 as ([] & w5 & E5 & E6).
      injection E6 as <- <-.
      destruct (shell_pwd_ret w3) as (w5' & E5' & Hf & Hsame).
      rewrite E5' in E5. injection E5 as <-. done. }
  destruct Hrest as (w3 & result & w4 & E3 & Hf4 & (He4 & Hc4 & _) & H').
  apply handle_redirection_same_but in E3 as (He3 & Hc3 & Hf3).
  assert (L1 : fds w4 !! s1 = Some d1).
  { rewrite Hf4, Hf3 by done. simpl.
    rewrite lookup_insert_ne by done. apply lookup_insert_eq. }
  assert (L2 : fds w4 !! s2 = Some d2).
  { rewrite Hf4, Hf3 by done. simpl. apply lookup_insert_eq. }
  assert (N1 : s1 ≠ STDOUT_FILENO ∧ s1 ≠ STDERR_FILENO ∧
               s2 ≠ STDOUT_FILENO ∧ s2 ≠ STDERR_FILENO).
  { rewrite !not_elem_of_cons in Hs1, Hs2. tauto. }
  destruct N1 as (N1 & N2 & N3 & N4).
  apply bind_ret_inv in H' as (? & w5 & E5 & H').
  rewrite (dup2_open s1 STDOUT_FILENO d1 w4 L1) in E5 by done.
  injection E5 as <- <-.
  apply bind_ret_inv in H' as (? & w6 & E6 & H').
  rewrite (dup2_open s2 STDERR_FILENO d2) in E6
    by (done || (simpl; by rewrite lookup_insert_ne)).
  injection E6 as <- <-.
  apply bind_ret_inv in H' as (? & w7 & E7 & H').
  rewrite (close_open s1 d1) in E7
    by (simpl; by rewrite !lookup_insert_ne).
  injection E7 as <- <-.
  apply bind_ret_inv in H' as (? & w8 & E8 & H').
  rewrite (close_open s2 d2) in E8
    by (simpl; rewrite lookup_delete_ne, !lookup_insert_ne by done; done).
  injection E8 as <- <-. injection H' as <- <-.
  assert (Ee : env w2 = env w) by reflexivity.
  assert (Ec : children w2 = children w) by reflexivity.
  repeat split; simpl; [congruence..|].
  intros fd Hfd. rewrite not_elem_of_cons in Hfd. destruct Hfd as [Hfd _].
  destruct (decide (fd = s2)) as [->|D2].
  { rewrite lookup_delete_eq. simpl in Hfree2.
    by rewrite lookup_insert_ne in Hfree2. }
  rewrite lookup_delete_ne by done.
  destruct (decide (fd = s1)) as [->|D1]; [by rewrite lookup_delete_eq|].
  rewrite lookup_delete_ne by done.
  destruct (decide (fd = STDERR_FILENO)) as [->|D3];
    [by rewrite lookup_insert_eq|].
  rewrite lookup_insert_ne by done.
  destruct (decide (fd = STDOUT_FILENO)) as [->|D4];
    [by rewrite lookup_insert_eq|].
  rewrite lookup_insert_ne by done.
  rewrite Hf4, Hf3 by (rewrite !not_elem_of_cons; repeat split;
                       [done..|apply not_elem_of_nil]).
  simpl. by rewrite !lookup_insert_ne.
Qed.

Lemma dup_ret oldfd w :
  ∃ r w', dup oldfd w = Ret r w' ∧ oracle w' = oracle w ∧ env w' = env w.
Proof.
  unfold dup, mbind, M_bind, get. destruct (fds w !! oldfd); by eexists _, _.
Qed.

(** Every builtin whose output target cannot be opened ends the process
    that runs it, with status 1. *)
Lemma builtin_failed_open_exits
    (s : simple_command_t word_t) (v wout : word_t) (path : string)
    (level : Z) (father : command_t) (w : World) (e : Z) :
  verb s = Some v → is_Some (word_string v) →
  get_word (env w) v ∈ ["cd"; "pwd"; "exit"; "quit"] →
  in_ s = None → out s = Some wout → err s = None →
  expand_variables (env w) (word_string wout) = Fits (Some path) →
  hd Done (oracle w) = Error e →
  ∃ w', parse_simple (Some s) level father w = Halt (Exited 1) w'.
Proof.
  intros Hv [str Hstr] Hword Hin Hout Herr Hso Hfail.
  destruct (dup_ret STDOUT_FILENO w) as (r1 & w1 & E1 & Ho1 & He1).
  destruct (dup_ret STDERR_FILENO w1) as (r2 & w2 & E2 & Ho2 & He2).
  assert (Hred : ∃ w', handle_redirection (Some s) w2 = Halt (Exited 1) w').
  { unfold handle_redirection, redirect_input, redirect_separate.
    rewrite Hin, Hout, Herr. unfold mbind, M_bind, get, mret, M_ret.
    rewrite He2, He1, Hso. unfold open, ask, mbind, M_bind.
    rewrite Ho2, Ho1, Hfail. by eexists. }
  destruct Hred as (w3 & E3).
  unfold parse_simple. rewrite Hv, Hstr.
  unfold mbind at 1, M_bind at 1, get at 1.
  rewrite !elem_of_cons in Hword.
  destruct Hword as [-> | [-> | [-> | [-> | []%elem_of_nil]]]];
    cbn [strchr String.eqb Ascii.eqb Bool.eqb orb eqb];
    unfold mbind at 1, M_bind at 1; rewrite E1;
    unfold mbind at 1, M_bind at 1; rewrite E2;
    unfold mbind at 1, M_bind at 1; rewrite E3; by eexists.
Qed.

End Builtins.

(** * Further properties *)

Import Further.

(** ** Quote stripping and expansion *)

(** X1. [remove_quotes] keeps exactly the characters of its input that
    are neither a single nor a double quote, in their order. *)
Theorem remove_quotes_filter (input : string) :
  remove_quotes (Some input)
  = Some (string_of_list_ascii
            (List.filter (λ c, negb (is_quote c)) (list_ascii_of_string input))).
Proof.
  unfold remove_quotes. f_equal.
  induction input as [|c rest IH]; [reflexivity|].
  rewrite remove_quotes_loop_cons. simpl.
  destruct (is_quote c); simpl; by rewrite IH.
Qed.

(** A defined result of the loop is the rendering of a reading whose
    names are short. *)
Lemma expand_loop_reads (e : gmap string string) s r :
  expand_loop e s "" = Fits r →
  ∃ ps, reads s ps ∧ forallb short ps = true ∧ render e ps = r ∧
        (String.length r < PATH_MAX)%nat.
Proof.
  intros H. destruct (reads_total s) as (ps & Hps). exists ps.
  destruct (forallb short ps) eqn:Hsh.
  2:{ rewrite (expand_loop_overruns e s ps Hps "") in H; [done | by left]. }
  destruct (Nat.lt_ge_cases (String.length (render e ps)) PATH_MAX) as [Hlt|Hge].
  - rewrite (expand_loop_fits e s ps Hps Hsh "") in H by done.
    simpl in H. injection H as <-. done.
  - rewrite (expand_loop_overruns e s ps Hps "") in H; [done | by right].
Qed.

(** X2. A string without [$] that is shorter than [PATH_MAX] is its own
    expansion, whatever the environment. *)
Theorem expand_variables_plain (e : gmap string string) (input : string) :
  strchr input "$" = false → (String.length input < PATH_MAX)%nat →
  expand_variables e (Some input) = Fits (Some input).
Proof.
  intros H Hlen. destruct (reads_plain_text e input H) as (ps & Hps & Hsh & Hr).
  unfold expand_variables.
  rewrite (expand_loop_fits e input ps Hps Hsh "") by (simpl; by rewrite Hr).
  simpl. by rewrite Hr.
Qed.

Lemma expand_variables_plain_witness :
  expand_variables {[ "HOME" := "/root" ]} (Some "a file.txt")
  = Fits (Some "a file.txt").
Proof.
  apply expand_variables_plain; [reflexivity | unfold PATH_MAX; simpl; lia].
Defined.

(** X3. A variable's value is put into the result as it is: it is not
    read again, so a [$] inside a value stays.  This is for a name
    shorter than 128 characters and a value shorter than [PATH_MAX]. *)
Theorem expand_variables_value_verbatim (e : gmap string string) (name : string) :
  name_run name → (String.length name < 128)%nat →
  (String.length (default "" (getenv e name)) < PATH_MAX)%nat →
  expand_variables e (Some (String "$" name))
  = Fits (Some (default "" (getenv e name))).
Proof.
  intros Hn Hname Hlen. unfold expand_variables.
  rewrite (expand_loop_fits e (String "$" name) [Var name]).
  - simpl. by rewrite string_app_nil_r.
  - pose proof (reads_var name "" [] Hn I reads_end) as H.
    by rewrite string_app_nil_r in H.
  - simpl. apply Nat.ltb_lt in Hname. by rewrite Hname.
  - simpl. by rewrite string_app_nil_r.
Qed.

Lemma expand_variables_value_verbatim_witness :
  expand_variables {[ "A" := "$B"; "B" := "x" ]} (Some "$A") = Fits (Some "$B").
Proof.
  rewrite (expand_variables_value_verbatim {[ "A" := "$B"; "B" := "x" ]} "A").
  - vm_compute. reflexivity.
  - reflexivity.
  - simpl. lia.
  - vm_compute. unfold lt. by repeat constructor.
Defined.

Lemma stops_app s b : stops b → stops s → stops (s ++ b).
Proof. destruct s; simpl; auto. Qed.

Lemma reads_app a b pa pb :
  reads a pa → stops b → reads b pb → reads (a ++ b) (pa ++ pb).
Proof.
  intros Ha Hb Hpb. induction Ha as [|c s ps Hc H IH|name s ps Hn Hs H IH]; simpl.
  - done.
  - by constructor.
  - rewrite string_app_assoc. constructor; [done| |done].
    by apply stops_app.
Qed.

Lemma render_app (e : gmap string string) pa pb :
  render e (pa ++ pb) = render e pa ++ render e pb.
Proof.
  induction pa as [|p pa IH]; simpl; [done|].
  by rewrite IH, string_app_assoc.
Qed.

(** X4. Expansion goes through a concatenation whose right part does not
    begin with an alphanumeric character or underscore: when [a] and [b]
    have expansions and the two together are shorter than [PATH_MAX],
    the expansion of [a ++ b] is that of [a] followed by that of [b]. *)
Theorem expand_variables_app (e : gmap string string) (a b ea eb : string) :
  stops b →
  expand_variables e (Some a) = Fits (Some ea) →
  expand_variables e (Some b) = Fits (Some eb) →
  (String.length (ea ++ eb) < PATH_MAX)%nat →
  expand_variables e (Some (a ++ b)) = Fits (Some (ea ++ eb)).
Proof.
  unfold expand_variables. intros Hb Ha Heb Hlen.
  destruct (expand_loop e a "") as [ra|] eqn:Ea; [|done]. injection Ha as ->.
  destruct (expand_loop e b "") as [rb|] eqn:Eb; [|done]. injection Heb as ->.
  destruct (expand_loop_reads e a ea Ea) as (pa & Hpa & Hsa & <- & _).
  destruct (expand_loop_reads e b eb Eb) as (pb & Hpb & Hsb & <- & _).
  rewrite (expand_loop_fits e (a ++ b) (pa ++ pb)).
  - simpl. by rewrite render_app.
  - by apply reads_app.
  - rewrite forallb_app. by rewrite Hsa, Hsb.
  - simpl. by rewrite render_app.
Qed.

Lemma expand_variables_app_witness :
  expand_variables {[ "U" := "me" ]} (Some ("/home/$U" ++ "/bin:$P"))
  = Fits (Some ("/home/me" ++ "/bin:")).
Proof.
  apply expand_variables_app; [reflexivity..|]. unfold PATH_MAX. simpl. lia.
Defined.

(** X5. A [$] that no alphanumeric character or underscore follows is
    dropped, whatever the environment holds; the text around it, when it
    is shorter than [PATH_MAX], stays. *)
Theorem expand_variables_lone_dollar (e : gmap string string) (before after : string) :
  strchr before "$" = false → strchr after "$" = false → stops after →
  (String.length (before ++ after) < PATH_MAX)%nat →
  expand_variables e (Some (before ++ String "$" after))
  = Fits (Some (before ++ after)).
Proof.
  intros Hb Ha Hs Hlen.
  apply (expand_unset e before after "" Hb Ha); [reflexivity | done | reflexivity | |done].
  simpl. lia.
Qed.

Lemma expand_variables_lone_dollar_witness :
  expand_variables {[ "x" := "1" ]} (Some ("cost: 5" ++ String "$" " each"))
  = Fits (Some ("cost: 5" ++ " each")).
Proof.
  apply expand_variables_lone_dollar; [reflexivity..|].
  unfold PATH_MAX. simpl. lia.
Defined.

(** X25. [expand_variables] has a defined result exactly when every
    name in the reading of its input is shorter than 128 characters and
    the rendering is shorter than [PATH_MAX]; the result is then the
    rendering: the literal characters unchanged and, for each [$] and
    the run after it, the value of that variable, nothing when it is
    unset. *)
Theorem expand_variables_defined (e : gmap string string) (input r : string) :
  expand_variables e (Some input) = Fits (Some r) ↔
  ∃ ps, reads input ps ∧ forallb short ps = true ∧ render e ps = r ∧
        (String.length r < PATH_MAX)%nat.
Proof.
  unfold expand_variables. split.
  - destruct (expand_loop e input "") as [r'|] eqn:E; [|done].
    intros [= ->]. by apply expand_loop_reads.
  - intros (ps & Hps & Hsh & <- & Hlen).
    by rewrite (expand_loop_fits e input ps Hps Hsh "").
Qed.

(** ** Code that returns, code that ends the process *)

Lemma returns_ret {A} (a : A) : returns (mret a).
Proof. intros w. by eexists _, _. Qed.

Lemma returns_bind {A B} (m : M A) (f : A → M B) :
  returns m → (∀ a, returns (f a)) → returns (m ≫= f).
Proof.
  intros Hm Hf w. destruct (Hm w) as (a & w1 & E).
  unfold mbind, M_bind. rewrite E. apply Hf.
Qed.

Lemma returns_get {A} (f : World → A) : returns (get f).
Proof. intros w. by eexists _, _. Qed.

Lemma returns_modify f : returns (modify f).
Proof. intros w. by eexists _, _. Qed.

Lemma returns_ask : returns ask.
Proof. intros w. by eexists _, _. Qed.

Lemma returns_fresh_id : returns fresh_id.
Proof. intros w. by eexists _, _. Qed.

Ltac returns_step :=
  first
    [ apply returns_ret | apply returns_get | apply returns_modify
    | apply returns_ask | apply returns_fresh_id
    | apply returns_bind; [|intros ?]
    | match goal with
      | |- returns (if ?b then _ else _) => destruct b
      | |- returns (match ?x with _ => _ end) => destruct x
      end ].

Ltac returns_auto := repeat returns_step.

Ltac returns_prim :=
  returns_auto; try (unfold emit, failing, install; returns_auto).

Lemma returns_emit e : returns (emit e).
Proof. unfold emit. returns_prim. Qed.

Lemma returns_failing {A} e (a : A) : returns (failing e a).
Proof. unfold failing. returns_prim. Qed.

Lemma returns_install d : returns (install d).
Proof. unfold install. returns_prim. Qed.




















Section Halting.
Context {P : Parser}.



End Halting.

(** ** What ends the shell *)

Section Ending.
Context {P : Parser}.



End Ending.

(** ** What children leave behind in their parent *)

Lemma fork_parent child w pid w1 :
  fork child w = Ret pid w1 →
  env w1 = env w ∧ fds w1 = fds w ∧
  ((pid = -1 ∧ children w1 = children w) ∨
   (pid ≠ -1 ∧ children w !! pid = None ∧
    ∃ s, children w1 = <[pid := s]> (children w))).
Proof.
  intros H. destruct (alloc_pid_unused (children w)) as [Hfree Hpos].
  unfold fork, ask in H.
  destruct (hd Done (oracle w)) as [| e | sig | code | t] eqn:Ha;
    try (destruct (child _) as [[] ?|s wc|wc] eqn:E; [|discriminate H];
         injection H as <- <-; repeat split; right;
         split; [lia | split; [done | by exists s]]).
  - injection H as <- <-. repeat split. by left.
  - injection H as <- <-. repeat split. right.
    split; [lia | split; [done | by eexists]].
Qed.

Lemma delete_insert_fresh {V} (m : gmap Z V) k v :
  m !! k = None → delete k (<[k := v]> m) = m.
Proof. intros H. rewrite delete_insert_eq. by apply delete_id. Qed.

Section Isolation.
Context {P : Parser}.

(** X8. An external command leaves the process that runs it as it was:
    whatever its redirections and whatever the program does, when
    [parse_simple] returns the environment, the descriptor table and the
    children of the caller are unchanged. *)
Theorem external_leaves_caller
    (s : simple_command_t word_t) (v : word_t) (level : Z) (father : command_t)
    (w : World) (r : Z) (w' : World) :
  verb s = Some v → is_Some (word_string v) →
  strchr (get_word (env w) v) "=" = false →
  is_builtin (get_word (env w) v) = false →
  parse_simple (Some s) level father w = Ret r w' →
  same_process w w'.
Proof.
  intros Hv [str Hstr] Heq Hb H.
  unfold parse_simple in H. rewrite Hv, Hstr in H.
  unfold mbind at 1, M_bind at 1, get at 1 in H.
  unfold is_builtin in Hb. rewrite Heq, Hb in H.
  apply bind_ret_inv in H as (pid & w1 & Hfork & H).
  destruct (fork_parent _ _ _ _ Hfork) as (He & Hf & Hc).
  destruct Hc as [[-> Hc] | (Hpid & Hfree & st & Hc)].
  - simpl in H. injection H as _ <-. by repeat split.
  - destruct (Z.eqb_spec pid (-1)) as [|_]; [done|].
    unfold mbind at 1, M_bind at 1 in H.
    rewrite (waitpid_found pid st w1) in H by (rewrite Hc; apply lookup_insert_eq).
    assert (Hw : same_process w (with_children (delete pid (children w1)) w1)).
    { repeat split; simpl; [done..|]. rewrite Hc. by apply delete_insert_fresh. }
    destruct (WIFEXITED st); by injection H as _ <-.
Qed.

(** X9. A PARALLEL node whose two children were forked leaves its
    process as it was: both children have been waited for, and the
    environment and the descriptors are those of before, whatever the
    children did to theirs. *)
Theorem parallel_leaves_caller
    (cmd1 cmd2 : command_t) (scmd : option (simple_command_t word_t))
    (level : Z) (father : command_t)
    (w : World) (pid1 : Z) (s1 : wait_status) (w1 : World)
    (pid2 : Z) (s2 : wait_status) (w2 : World) :
  let c := Command OP_PARALLEL cmd1 cmd2 scmd in
  well_called level father →
  is_null cmd1 = false → is_null cmd2 = false →
  forks (subshell (parse_command cmd1 (level + 1) c)) w pid1 s1 w1 →
  forks (subshell (parse_command cmd2 (level + 1) c)) w1 pid2 s2 w2 →
  ∃ r w', parse_command c level father w = Ret r w' ∧ same_process w w'.
Proof.
  intros c Hcall Hn1 Hn2 H1 H2.
  eexists _, _. split.
  { by apply (parallel_forked cmd1 cmd2 scmd level father w pid1 s1 w1 pid2 s2 w2). }
  destruct (forks_children _ _ _ _ _ H1) as (Hc1 & Hfree1 & Hf1 & He1).
  destruct (forks_children _ _ _ _ _ H2) as (Hc2 & Hfree2 & Hf2 & He2).
  assert (Hne : pid1 ≠ pid2)
    by (intros ->; rewrite Hc1, lookup_insert_eq in Hfree2; done).
  repeat split; simpl; [congruence..|].
  rewrite Hc2, Hc1. rewrite Hc1, lookup_insert_ne in Hfree2 by done.
  rewrite (delete_insert_ne _ pid1 pid2) by done.
  rewrite (delete_insert_fresh (children w) pid1) by done.
  by apply delete_insert_fresh.
Qed.

End Isolation.

Lemma pipe_created w pipefd0 pipefd1 w0 :
  pipe w = Ret (Some (pipefd0, pipefd1)) w0 →
  ∃ id,
    fds w !! pipefd0 = None ∧
    <[pipefd0 := PipeRead id]> (fds w) !! pipefd1 = None ∧
    fds w0 = <[pipefd1 := PipeWrite id]> (<[pipefd0 := PipeRead id]> (fds w)) ∧
    env w0 = env w ∧ children w0 = children w.
Proof.
  intros H. exists (next_id w).
  destruct (alloc_fd_unused (fds w)) as [Hfree0 _].
  destruct (alloc_fd_unused (<[alloc_fd (fds w) := PipeRead (next_id w)]> (fds w)))
    as [Hfree1 _].
  unfold pipe, ask, mbind, M_bind in H.
  destruct (hd Done (oracle w)); try discriminate H;
    unfold fresh_id, install, modify, get, mbind, M_bind, mret, M_ret in H;
    simpl in H; injection H as <- <- <-; by repeat split.
Qed.

Section PipeIsolation.
Context {P : Parser}.

(** X10. A PIPE node whose pipe was created and whose two children were
    forked leaves its process as it was: both ends of the pipe are closed
    again in the parent, both children have been waited for, and the
    environment is unchanged. *)
Theorem pipe_leaves_caller
    (cmd1 cmd2 : command_t) (scmd : option (simple_command_t word_t))
    (level : Z) (father : command_t)
    (w : World) (pipefd0 pipefd1 : Z) (w0 : World)
    (pid1 : Z) (s1 : wait_status) (w1 : World)
    (pid2 : Z) (s2 : wait_status) (w2 : World) :
  let c := Command OP_PIPE cmd1 cmd2 scmd in
  well_called level father →
  pipe w = Ret (Some (pipefd0, pipefd1)) w0 →
  forks (pipe_writer pipefd0 pipefd1 (parse_command cmd1 (level + 1) c))
        w0 pid1 s1 w1 →
  forks (pipe_reader pipefd0 pipefd1 (parse_command cmd2 (level + 1) c))
        w1 pid2 s2 w2 →
  ∃ r w', parse_command c level father w = Ret r w' ∧ same_process w w'.
Proof.
  intros c Hcall Hpipe H1 H2.
  destruct (pipe_created _ _ _ _ Hpipe) as (id & Hfree0 & Hfree1 & Hfds0 & He0 & Hc0).
  destruct (forks_twice _ _ _ _ _ _ _ _ _ H1 H2) as (Hw1 & Hw2).
  destruct (forks_children _ _ _ _ _ H1) as (Hc1 & Hfr1 & Hf1 & He1).
  destruct (forks_children _ _ _ _ _ H2) as (Hc2 & Hfr2 & Hf2 & He2).
  assert (Hne : pid1 ≠ pid2)
    by (intros ->; rewrite Hc1, lookup_insert_eq in Hfr2; done).
  assert (Hfdne : pipefd0 ≠ pipefd1)
    by (intros ->; by rewrite lookup_insert_eq in Hfree1).
  destruct H1 as (H1 & Hp1 & _), H2 as (H2 & Hp2 & _).
  destruct (fork_created _ _ _ _ H2 Hp2) as (Hpid2 & _).
  pose proof (alloc_pid_unused (children w1)) as [_ Hpos]. rewrite <- Hpid2 in Hpos.
  simpl. rewrite Hcall. unfold run_on_pipe.
  unfold mbind at 1, M_bind at 1. unfold mbind at 1, M_bind at 1.
  rewrite Hpipe. fold c.
  unfold mbind at 1, M_bind at 1. rewrite H1.
  destruct (Z.eqb_spec pid1 (-1)) as [|_]; [done|].
  unfold mbind at 1, M_bind at 1. rewrite H2.
  destruct (Z.ltb_spec pid2 0) as [|_]; [lia|].
  unfold mbind at 1, M_bind at 1.
  rewrite (close_open pipefd0 (PipeRead id) w2)
    by (rewrite Hf2, Hf1, Hfds0, lookup_insert_ne by done; apply lookup_insert_eq).
  unfold mbind at 1, M_bind at 1.
  rewrite (close_open pipefd1 (PipeWrite id))
    by (simpl; rewrite lookup_delete_ne by done;
        rewrite Hf2, Hf1, Hfds0; apply lookup_insert_eq).
  unfold mbind at 1, M_bind at 1.
  rewrite (waitpid_found pid1 s1) by exact Hw1.
  unfold mbind at 1, M_bind at 1.
  rewrite (waitpid_found pid2 s2) by exact Hw2.
  assert (Hfds : delete pipefd1 (delete pipefd0 (fds w2)) = fds w).
  { rewrite Hf2, Hf1, Hfds0.
    rewrite (delete_insert_ne _ pipefd0 pipefd1) by done.
    rewrite (delete_insert_fresh (fds w) pipefd0) by done.
    apply delete_insert_fresh. by rewrite lookup_insert_ne in Hfree1. }
  assert (Hch : delete pid2 (delete pid1 (children w2)) = children w).
  { rewrite Hc2, Hc1, Hc0. rewrite Hc1, Hc0, lookup_insert_ne in Hfr2 by done.
    rewrite Hc0 in Hfr1.
    rewrite (delete_insert_ne _ pid1 pid2) by done.
    rewrite (delete_insert_fresh (children w) pid1) by done.
    by apply delete_insert_fresh. }
  unfold mret, M_ret.
  destruct (WIFEXITED s2 && (WEXITSTATUS s2 =? 0)); eexists _, _;
    (split; [reflexivity|]); repeat split; simpl; congruence.
Qed.

End PipeIsolation.

(** ** When the machine refuses a pipe or a process *)

Lemma fork_refused child w e :
  hd Done (oracle w) = Error e →
  fork child w = Ret (-1) (with_errno e (with_oracle (tl (oracle w)) w)).
Proof. intros H. unfold fork, ask. by rewrite H. Qed.

Section Refusals.
Context {P : Parser}.

(** X11. When the pipe cannot be created, a PIPE node forks nothing and
    runs nothing: it reports the failure twice on standard error, returns
    -1 and leaves its process as it was. *)
Theorem pipe_refused
    (cmd1 cmd2 : command_t) (scmd : option (simple_command_t word_t))
    (level : Z) (father : command_t) (w : World) (e : Z) :
  let c := Command OP_PIPE cmd1 cmd2 scmd in
  well_called level father →
  hd Done (oracle w) = Error e →
  ∃ w', parse_command c level father w = Ret (-1) w' ∧
        same_process w w' ∧
        trace w' = (trace w ++
          [EvPerror (fds w !! STDERR_FILENO)
             (if (e =? EMFILE) || (e =? ENFILE)
              then "pipe (resource-related error)" else "pipe (error)") e;
           EvOutput (fds w !! STDERR_FILENO)
             (String.append "Error: Pipe execution failed" nl)])%list.
Proof.
  intros c Hcall Hfail. simpl. rewrite Hcall.
  unfold run_on_pipe, pipe, ask. unfold mbind, M_bind. rewrite Hfail.
  unfold failing, modify, get, mbind, M_bind, mret, M_ret. simpl.
  destruct ((e =? EMFILE) || (e =? ENFILE)); eexists;
    (split; [reflexivity|]); (split; [by repeat split|]);
    simpl; by rewrite <- app_assoc.
Qed.

(** X12. When the first fork of a PIPE node fails, the node returns -1;
    if the failure is EAGAIN or ENOMEM both ends of the pipe stay open in
    the process, for any other error they are closed again. *)
Theorem pipe_first_fork_refused
    (cmd1 cmd2 : command_t) (scmd : option (simple_command_t word_t))
    (level : Z) (father : command_t)
    (w : World) (pipefd0 pipefd1 : Z) (w0 : World) (e : Z) :
  let c := Command OP_PIPE cmd1 cmd2 scmd in
  well_called level father →
  pipe w = Ret (Some (pipefd0, pipefd1)) w0 →
  hd Done (oracle w0) = Error e →
  ∃ w', parse_command c level father w = Ret (-1) w' ∧
        if (e =? EAGAIN) || (e =? ENOMEM)
        then fds w !! pipefd0 = None ∧ fds w !! pipefd1 = None ∧
             is_Some (fds w' !! pipefd0) ∧ is_Some (fds w' !! pipefd1)
        else fds w' = fds w.
Proof.
  intros c Hcall Hpipe Hfail.
  destruct (pipe_created _ _ _ _ Hpipe) as (id & Hfree0 & Hfree1 & Hfds0 & He0 & Hc0).
  assert (Hfdne : pipefd0 ≠ pipefd1)
    by (intros ->; by rewrite lookup_insert_eq in Hfree1).
  simpl. rewrite Hcall. unfold run_on_pipe.
  unfold mbind at 1, M_bind at 1. unfold mbind at 1, M_bind at 1.
  rewrite Hpipe. fold c.
  unfold mbind at 1, M_bind at 1. rewrite (fork_refused _ w0 e Hfail).
  simpl (-1 =? -1). cbv iota.
  unfold mbind at 1, M_bind at 1, get at 1. cbn [errno with_errno].
  destruct ((e =? EAGAIN) || (e =? ENOMEM)).
  - eexists. split; [reflexivity|]. simpl. rewrite Hfds0.
    rewrite lookup_insert_ne in Hfree1 by done.
    repeat split; [done..| |].
    + rewrite lookup_insert_ne by done. rewrite lookup_insert_eq. by eexists.
    + rewrite lookup_insert_eq. by eexists.
  - unfold perror, emit, modify, get. unfold mbind, M_bind. simpl.
    rewrite (close_open pipefd0 (PipeRead id))
      by (simpl; rewrite Hfds0, lookup_insert_ne by done; apply lookup_insert_eq).
    rewrite (close_open pipefd1 (PipeWrite id))
      by (simpl; rewrite lookup_delete_ne by done;
          rewrite Hfds0; apply lookup_insert_eq).
    eexists. split; [reflexivity|]. simpl. rewrite Hfds0.
    rewrite (delete_insert_ne _ pipefd0 pipefd1) by done.
    rewrite (delete_insert_fresh (fds w) pipefd0) by done.
    apply delete_insert_fresh. by rewrite lookup_insert_ne in Hfree1.
Qed.

(** X13. When the second fork of a PARALLEL node fails, the node returns
    -1 without waiting for the first child: that child stays in the
    table of unwaited children of the process. *)
Theorem parallel_second_fork_refused
    (cmd1 cmd2 : command_t) (scmd : option (simple_command_t word_t))
    (level : Z) (father : command_t)
    (w : World) (pid1 : Z) (s1 : wait_status) (w1 : World) (e : Z) :
  let c := Command OP_PARALLEL cmd1 cmd2 scmd in
  well_called level father →
  is_null cmd1 = false → is_null cmd2 = false →
  forks (subshell (parse_command cmd1 (level + 1) c)) w pid1 s1 w1 →
  hd Done (oracle w1) = Error e →
  ∃ w', parse_command c level father w = Ret (-1) w' ∧
        children w !! pid1 = None ∧ children w' !! pid1 = Some s1.
Proof.
  intros c Hcall Hn1 Hn2 H1 Hfail.
  destruct (forks_children _ _ _ _ _ H1) as (Hc1 & Hfr1 & _).
  destruct H1 as (H1 & Hp1 & Hs1).
  simpl. rewrite Hcall. unfold run_in_parallel. rewrite Hn1, Hn2. simpl.
  unfold mbind at 1, M_bind at 1. unfold mbind at 1, M_bind at 1.
  fold c. rewrite H1.
  destruct (Z.eqb_spec pid1 (-1)) as [|_]; [done|].
  unfold mbind at 1, M_bind at 1. rewrite (fork_refused _ w1 e Hfail).
  eexists. split; [reflexivity|]. by split.
Qed.

End Refusals.

(** ** The internal commands *)

Lemma builtin_restore (s1 s2 : Z) (d1 d2 : ofd) (r : Z) (w4 : World)
    (f0 : gmap Z ofd) :
  f0 !! STDOUT_FILENO = Some d1 → f0 !! STDERR_FILENO = Some d2 →
  f0 !! s1 = None → f0 !! s2 = None → s1 ≠ s2 →
  fds w4 !! s1 = Some d1 → fds w4 !! s2 = Some d2 →
  (∀ k, k ≠ STDOUT_FILENO → k ≠ STDERR_FILENO → k ≠ s1 → k ≠ s2 →
        fds w4 !! k = f0 !! k) →
  (dup2 s1 STDOUT_FILENO;; dup2 s2 STDERR_FILENO;;
   close s1;; close s2;; mret r) w4 = Ret r (with_fds f0 w4).
Proof.
  intros H1 H2 Hf1 Hf2 Hne L1 L2 Hrest.
  assert (N1 : s1 ≠ STDOUT_FILENO) by (intros ->; congruence).
  assert (N2 : s1 ≠ STDERR_FILENO) by (intros ->; congruence).
  assert (N3 : s2 ≠ STDOUT_FILENO) by (intros ->; congruence).
  assert (N4 : s2 ≠ STDERR_FILENO) by (intros ->; congruence).
  unfold mbind at 1, M_bind at 1.
  rewrite (dup2_open s1 STDOUT_FILENO d1 w4 L1) by done.
  unfold mbind at 1, M_bind at 1.
  rewrite (dup2_open s2 STDERR_FILENO d2)
    by (done || (simpl; by rewrite lookup_insert_ne)).
  unfold mbind at 1, M_bind at 1.
  rewrite (close_open s1 d1) by (simpl; by rewrite !lookup_insert_ne).
  unfold mbind at 1, M_bind at 1.
  rewrite (close_open s2 d2)
    by (simpl; rewrite lookup_delete_ne, !lookup_insert_ne by done; done).
  unfold mret, M_ret. f_equal. unfold with_fds. simpl. f_equal.
  apply map_eq. intros k.
  destruct (decide (k = s2)) as [->|D2]; [by rewrite lookup_delete_eq|].
  rewrite lookup_delete_ne by done.
  destruct (decide (k = s1)) as [->|D1]; [by rewrite lookup_delete_eq|].
  rewrite lookup_delete_ne by done.
  destruct (decide (k = STDERR_FILENO)) as [->|D3];
    [by rewrite lookup_insert_eq|].
  rewrite lookup_insert_ne by done.
  destruct (decide (k = STDOUT_FILENO)) as [->|D4];
    [by rewrite lookup_insert_eq|].
  rewrite lookup_insert_ne by done. by apply Hrest.
Qed.

(** The two [dup] calls that a builtin starts with. *)
Lemma builtin_saves (w : World) (d1 d2 : ofd) :
  fds w !! STDOUT_FILENO = Some d1 → fds w !! STDERR_FILENO = Some d2 →
  ∃ s1 s2,
    fds w !! s1 = None ∧ fds w !! s2 = None ∧ s1 ≠ s2 ∧
    s1 ≠ STDOUT_FILENO ∧ s1 ≠ STDERR_FILENO ∧
    s2 ≠ STDOUT_FILENO ∧ s2 ≠ STDERR_FILENO ∧
    dup STDOUT_FILENO w = Ret s1 (with_fds (<[s1 := d1]> (fds w)) w) ∧
    dup STDERR_FILENO (with_fds (<[s1 := d1]> (fds w)) w)
    = Ret s2 (with_fds (<[s2 := d2]> (<[s1 := d1]> (fds w))) w).
Proof.
  intros H1 H2.
  destruct (alloc_fd_unused (fds w)) as [Hf1 _].
  destruct (alloc_fd_unused (<[alloc_fd (fds w) := d1]> (fds w))) as [Hf2 _].
  set (s1 := alloc_fd (fds w)) in *.
  set (s2 := alloc_fd (<[s1 := d1]> (fds w))) in *.
  assert (Hne : s1 ≠ s2) by (intros E; rewrite <- E, lookup_insert_eq in Hf2; done).
  rewrite lookup_insert_ne in Hf2 by done.
  exists s1, s2. repeat split; try done; try (intros E; congruence).
  - by apply dup_open.
  - rewrite (dup_open STDERR_FILENO d2); [done|]. simpl.
    rewrite lookup_insert_ne; [done | intros E; congruence].
Qed.

Section Internal.
Context {P : Parser}.

Lemma handle_redirection_no_targets s w :
  no_targets s → handle_redirection (Some s) w = Ret tt w.
Proof.
  intros (Hin & Hout & Herr).
  unfold handle_redirection, redirect_input, redirect_separate.
  by rewrite Hin, Hout, Herr.
Qed.

Lemma cd_change_result dir target pointer w :
  (∀ w0, cd_release dir pointer w0 = Ret tt w0) →
  ∃ ok w', cd_change dir target pointer w = Ret ok w' ∧ same_process w w' ∧
    ok = negb (next_fails w) ∧ oracle w' = tl (oracle w) ∧
    trace w' = (trace w ++ EvChdir target ok ::
      (if ok then []
       else [EvOutput (fds w !! STDERR_FILENO)
               (String.append "cd: "
                  (String.append target
                     (String.append ": No such file or directory" nl)))]))%list.
Proof.
  intros Hrel. unfold cd_change, chdir, ask, next_fails.
  unfold mbind at 1, M_bind at 1. unfold mbind at 1, M_bind at 1.
  destruct (hd Done (oracle w)); simpl;
    unfold output, emit, failing, modify, get, mbind, M_bind, mret, M_ret;
    simpl; rewrite Hrel; eexists _, _;
    (split; [reflexivity|]); (split; [by repeat split|]);
    simpl; repeat split; by rewrite <- ?app_assoc.
Qed.

(** [shell_cd], by the directory it decides on: with none it prints a
    diagnostic and calls nothing; with one it calls [chdir] once and
    succeeds exactly when [chdir] does.  This is outside the case in
    which it frees the string of [getenv]. *)
Lemma shell_cd_result (dir : option word_t) (w : World) :
  cd_frees_home (env w) dir = false →
  ∃ ok w', shell_cd dir w = Ret ok w' ∧ same_process w w' ∧
    match cd_target (env w) dir with
    | None =>
        ok = false ∧ oracle w' = oracle w ∧
        trace w' = (trace w ++
          [EvOutput (fds w !! STDERR_FILENO)
             (String.append "cd: HOME not set" nl)])%list
    | Some target =>
        ok = negb (next_fails w) ∧ oracle w' = tl (oracle w) ∧
        trace w' = (trace w ++ EvChdir target ok ::
          (if ok then []
           else [EvOutput (fds w !! STDERR_FILENO)
                   (String.append "cd: "
                      (String.append target
                         (String.append ": No such file or directory" nl)))]))%list
    end.
Proof.
  unfold shell_cd, cd_target, cd_frees_home. intros Hsafe.
  destruct dir as [d|]; [destruct (word_string d) as [[|c str]|] eqn:Hd|].
  2:{ unfold remove_quotes. apply cd_change_result.
      intros w0. unfold cd_release. by rewrite Hd. }
  all: unfold mbind at 1, M_bind at 1, get at 1;
    destruct (getenv (env w) "HOME") as [home|]; try discriminate Hsafe;
    first [ apply cd_change_result; intros w0; unfold cd_release;
            by rewrite ?Hd
          | eexists _, _; (split; [reflexivity|]);
            (split; [by repeat split|]); by repeat split ].
Qed.

(** In that case [shell_cd] changes to [HOME] and then has no defined
    outcome. *)
Lemma shell_cd_frees_home (dir : option word_t) (w : World) (home : string) :
  cd_frees_home (env w) dir = true → getenv (env w) "HOME" = Some home →
  ∃ w' rest, shell_cd dir w = Undef w' ∧ env w' = env w ∧
    trace w' = (trace w ++ EvChdir home (negb (next_fails w)) :: rest)%list.
Proof.
  unfold shell_cd, cd_frees_home. intros Hfree Hhome.
  destruct dir as [d|]; [|done].
  destruct (word_string d) as [[|c str]|] eqn:Hd; [|done..].
  unfold mbind at 1, M_bind at 1, get at 1. rewrite Hhome.
  unfold cd_change, cd_release, chdir, ask, next_fails. rewrite Hd.
  unfold mbind at 1, M_bind at 1. unfold mbind at 1, M_bind at 1.
  destruct (hd Done (oracle w)); simpl;
    unfold output, emit, failing, modify, get, mbind, M_bind, mret, M_ret;
    simpl; eexists _, _; (split; [reflexivity|]); (split; [done|]);
    simpl; by rewrite <- ?app_assoc.
Qed.

(** An internal command, once its two [dup] calls are done. *)
Lemma builtin_saved
    (s : simple_command_t word_t) (v : word_t) (level : Z) (father : command_t)
    (w : World) (d1 d2 : ofd) :
  verb s = Some v → is_Some (word_string v) →
  strchr (get_word (env w) v) "=" = false →
  is_builtin (get_word (env w) v) = true →
  fds w !! STDOUT_FILENO = Some d1 → fds w !! STDERR_FILENO = Some d2 →
  ∃ s1 s2,
    fds w !! s1 = None ∧ fds w !! s2 = None ∧ s1 ≠ s2 ∧
    s1 ≠ STDOUT_FILENO ∧ s1 ≠ STDERR_FILENO ∧
    s2 ≠ STDOUT_FILENO ∧ s2 ≠ STDERR_FILENO ∧
    parse_simple (Some s) level father w
    = (handle_redirection (Some s);;
       result ←
         (if String.eqb (get_word (env w) v) "cd" then
            ok ← shell_cd (params s);
            mret (if (ok : bool) then 0 else 1)
          else if String.eqb (get_word (env w) v) "pwd" then
            shell_pwd;; mret 0
          else if String.eqb (get_word (env w) v) "exit" ||
                  String.eqb (get_word (env w) v) "quit" then
            shell_exit;; mret 0
          else mret 0);
       dup2 s1 STDOUT_FILENO;;
       dup2 s2 STDERR_FILENO;;
       close s1;;
       close s2;;
       mret result)
      (with_fds (<[s2 := d2]> (<[s1 := d1]> (fds w))) w).
Proof.
  intros Hv [str Hstr] Heq Hb H1 H2.
  destruct (builtin_saves w d1 d2 H1 H2)
    as (s1 & s2 & F1 & F2 & N & N1 & N2 & N3 & N4 & E1 & E2).
  exists s1, s2. repeat split; try done.
  unfold parse_simple. rewrite Hv, Hstr.
  unfold mbind at 1, M_bind at 1, get at 1.
  unfold is_builtin in Hb. rewrite Heq, Hb.
  unfold mbind at 1, M_bind at 1. rewrite E1.
  unfold mbind at 1, M_bind at 1. rewrite E2. reflexivity.
Qed.

(** X14. [cd] without redirection, in a process with standard output and
    error open, outside the case in which [shell_cd] frees the string of
    [getenv] (an argument that is the empty string, with [HOME] set).
    It goes to its argument with the quotes taken out (no variable is
    expanded in it), or to [HOME] as it is when there is no argument.
    With no directory to go to it prints a diagnostic, calls nothing and
    the command returns 1; otherwise it calls [chdir] once, and the
    command returns 0 when that succeeds and 1 with a diagnostic naming
    the directory when it fails.  In every case the shell goes on with
    its environment, descriptors and children as before. *)
Theorem cd_command
    (s : simple_command_t word_t) (v : word_t) (level : Z) (father : command_t)
    (w : World) (d1 d2 : ofd) :
  verb s = Some v → is_Some (word_string v) →
  get_word (env w) v = "cd" → no_targets s →
  cd_frees_home (env w) (params s) = false →
  fds w !! STDOUT_FILENO = Some d1 → fds w !! STDERR_FILENO = Some d2 →
  ∃ r w', parse_simple (Some s) level father w = Ret r w' ∧ same_process w w' ∧
    match cd_target (env w) (params s) with
    | None =>
        r = 1 ∧ oracle w' = oracle w ∧
        trace w' = (trace w ++
          [EvOutput (Some d2) (String.append "cd: HOME not set" nl)])%list
    | Some target =>
        r = (if next_fails w then 1 else 0) ∧ oracle w' = tl (oracle w) ∧
        trace w' = (trace w ++ EvChdir target (negb (next_fails w)) ::
          (if next_fails w
           then [EvOutput (Some d2)
                   (String.append "cd: "
                      (String.append target
                         (String.append ": No such file or directory" nl)))]
           else []))%list
    end.
Proof.
  intros Hv Hstr Hword Hno Hcd H1 H2.
  destruct (builtin_saved s v level father w d1 d2 Hv Hstr)
    as (s1 & s2 & F1 & F2 & N & N1 & N2 & N3 & N4 & E);
    [by rewrite Hword..|done|done|].
  rewrite E, Hword. clear E. cbn [String.eqb Ascii.eqb Bool.eqb].
  set (w2 := with_fds (<[s2 := d2]> (<[s1 := d1]> (fds w))) w).
  unfold mbind at 1, M_bind at 1. rewrite (handle_redirection_no_targets s w2 Hno).
  unfold mbind at 1, M_bind at 1. unfold mbind at 1, M_bind at 1.
  destruct (shell_cd_result (params s) w2 Hcd)
    as (ok & w3 & E & (He & Hf & Hc) & Hspec).
  rewrite E. unfold mret at 1, M_ret at 1.
  assert (L2 : fds w2 !! STDERR_FILENO = Some d2)
    by (simpl; by rewrite !lookup_insert_ne).
  rewrite (builtin_restore s1 s2 d1 d2 _ w3 (fds w)); try done.
  - eexists _, _. split; [reflexivity|]. split; [by repeat split|].
    change (env w2) with (env w) in Hspec.
    change (next_fails w2) with (next_fails w) in Hspec.
    change (oracle w2) with (oracle w) in Hspec.
    change (trace w2) with (trace w) in Hspec.
    rewrite L2 in Hspec.
    destruct (cd_target (env w) (params s)) as [target|].
    + destruct Hspec as (-> & Ho & Ht). simpl.
      rewrite Ho, Ht. by destruct (next_fails w).
    + destruct Hspec as (-> & Ho & Ht). simpl. by rewrite Ho, Ht.
  - rewrite Hf. simpl. rewrite lookup_insert_ne by done. apply lookup_insert_eq.
  - rewrite Hf. simpl. apply lookup_insert_eq.
  - intros k K1 K2 K3 K4. rewrite Hf. simpl. by rewrite !lookup_insert_ne.
Qed.

(** What [shell_pwd] prints when [getcwd] gives a path, and when both of
    its [getcwd] calls fail. *)
Lemma shell_pwd_prints (w : World) (c : ascii) (cwd : string) :
  hd Done (oracle w) = Text (String c cwd) →
  (String.length (String c cwd) < 4096)%nat →
  ∃ w', shell_pwd w = Ret tt w' ∧ same_process w w' ∧
        oracle w' = tl (oracle w) ∧
        trace w' = (trace w ++
          [EvOutput (fds w !! STDOUT_FILENO) (String.append (String c cwd) nl)])%list.
Proof.
  intros Ha Hlen. unfold shell_pwd, getcwd, ask. unfold mbind, M_bind. rewrite Ha.
  destruct (Nat.ltb_spec (String.length (String c cwd)) 4096) as [_|]; [|lia].
  eexists. split; [reflexivity|]. by repeat split.
Qed.

Lemma shell_pwd_fails (w : World) (e1 e2 : Z) (rest : list answer) :
  oracle w = Error e1 :: Error e2 :: rest →
  ∃ w', shell_pwd w = Ret tt w' ∧ same_process w w' ∧
        trace w' = (trace w ++ [EvPerror (fds w !! STDERR_FILENO) "pwd" e2])%list.
Proof.
  intros Ho. unfold shell_pwd, getcwd, ask. unfold mbind, M_bind. rewrite Ho.
  eexists. split; [reflexivity|]. by repeat split.
Qed.

(** X15. [pwd] without redirection, in a process with standard output
    and error open, always returns 0 and leaves the environment, the
    descriptors and the children of the shell as they were.  When
    [getcwd] gives a path that is not empty, the path and a newline go to
    standard output; when [getcwd] fails and fails again on the second
    call, [perror] reports the second error on standard error, and the
    result is 0 all the same. *)
Theorem pwd_command
    (s : simple_command_t word_t) (v : word_t) (level : Z) (father : command_t)
    (w : World) (d1 d2 : ofd) :
  verb s = Some v → is_Some (word_string v) →
  get_word (env w) v = "pwd" → no_targets s →
  fds w !! STDOUT_FILENO = Some d1 → fds w !! STDERR_FILENO = Some d2 →
  ∃ w', parse_simple (Some s) level father w = Ret 0 w' ∧ same_process w w' ∧
    (∀ c cwd, hd Done (oracle w) = Text (String c cwd) →
       (String.length (String c cwd) < 4096)%nat →
       trace w' = (trace w ++
         [EvOutput (Some d1) (String.append (String c cwd) nl)])%list) ∧
    (∀ e1 e2 rest, oracle w = Error e1 :: Error e2 :: rest →
       trace w' = (trace w ++ [EvPerror (Some d2) "pwd" e2])%list).
Proof.
  intros Hv Hstr Hword Hno H1 H2.
  destruct (builtin_saved s v level father w d1 d2 Hv Hstr)
    as (s1 & s2 & F1 & F2 & N & N1 & N2 & N3 & N4 & E);
    [by rewrite Hword..|done|done|].
  rewrite E, Hword. clear E. cbn [String.eqb Ascii.eqb Bool.eqb].
  set (w2 := with_fds (<[s2 := d2]> (<[s1 := d1]> (fds w))) w).
  unfold mbind at 1, M_bind at 1. rewrite (handle_redirection_no_targets s w2 Hno).
  unfold mbind at 1, M_bind at 1. unfold mbind at 1, M_bind at 1.
  destruct (shell_pwd_ret w2) as (w3 & E & Hf & He & Hc & _).
  rewrite E. unfold mret at 1, M_ret at 1.
  assert (L1 : fds w2 !! STDOUT_FILENO = Some d1).
  { simpl. rewrite lookup_insert_ne by done.
    rewrite lookup_insert_ne by done. done. }
  assert (L2 : fds w2 !! STDERR_FILENO = Some d2)
    by (simpl; by rewrite !lookup_insert_ne).
  rewrite (builtin_restore s1 s2 d1 d2 _ w3 (fds w)); try done.
  - eexists. split; [reflexivity|]. split; [by repeat split|]. split.
    + intros c cwd Ha Hlen.
      destruct (shell_pwd_prints w2 c cwd Ha Hlen) as (w3' & E' & _ & _ & Ht).
      rewrite E' in E. injection E as ->. simpl. rewrite Ht. by rewrite L1.
    + intros e1 e2 rest Ho.
      destruct (shell_pwd_fails w2 e1 e2 rest Ho) as (w3' & E' & _ & Ht).
      rewrite E' in E. injection E as ->. simpl. rewrite Ht. by rewrite L2.
  - rewrite Hf. simpl. rewrite lookup_insert_ne by done. apply lookup_insert_eq.
  - rewrite Hf. simpl. apply lookup_insert_eq.
  - intros k K1 K2 K3 K4. rewrite Hf. simpl. by rewrite !lookup_insert_ne.
Qed.

(** X16. [pwd > file], in a process with standard output and error
    open: when the file opens and [getcwd] gives a path that is not
    empty, the path and a newline are written to the file, the command
    returns 0, and afterwards the descriptors of the shell are those of
    before: standard output is what it was and the file is closed. *)
Theorem pwd_to_file
    (s : simple_command_t word_t) (v wout : word_t) (path : string)
    (level : Z) (father : command_t)
    (w : World) (d1 d2 : ofd) (a : answer) (c : ascii) (cwd : string)
    (rest : list answer) :
  verb s = Some v → is_Some (word_string v) →
  get_word (env w) v = "pwd" →
  in_ s = None → out s = Some wout → err s = None →
  expand_variables (env w) (word_string wout) = Fits (Some path) →
  fds w !! STDOUT_FILENO = Some d1 → fds w !! STDERR_FILENO = Some d2 →
  oracle w = a :: Text (String c cwd) :: rest → is_error a = false →
  (String.length (String c cwd) < 4096)%nat →
  let flags := get_io_flags (io_flags s) IO_OUT_APPEND in
  ∃ w', parse_simple (Some s) level father w = Ret 0 w' ∧ same_process w w' ∧
    trace w' = (trace w ++
      [EvOpen path flags (Some (next_id w));
       EvOutput (Some (File (next_id w) path flags))
         (String.append (String c cwd) nl)])%list.
Proof.
  intros Hv Hstr Hword Hin Hout Herr Hexp H1 H2 Ho Ha Hlen flags.
  destruct (builtin_saved s v level father w d1 d2 Hv Hstr)
    as (s1 & s2 & F1 & F2 & N & N1 & N2 & N3 & N4 & E);
    [by rewrite Hword..|done|done|].
  rewrite E, Hword. clear E. cbn [String.eqb Ascii.eqb Bool.eqb].
  set (w2 := with_fds (<[s2 := d2]> (<[s1 := d1]> (fds w))) w).
  assert (L1 : fds w2 !! STDOUT_FILENO = Some d1).
  { simpl. rewrite lookup_insert_ne by done.
    rewrite lookup_insert_ne by done. done. }
  assert (Hred : handle_redirection (Some s) w2
                 = Ret tt (redirected [STDOUT_FILENO] path flags w2)).
  { unfold handle_redirection, redirect_input, redirect_separate.
    rewrite Hin, Hout, Herr.
    unfold mbind at 1, M_bind at 1. unfold mret at 1, M_ret at 1.
    unfold mbind at 1, M_bind at 1. unfold mbind at 1, M_bind at 1, get at 1.
    change (env w2) with (env w). rewrite Hexp.
    rewrite (open_then_dup2 path flags STDOUT_FILENO _ w2); [done| |by eexists|done].
    change (oracle w2) with (oracle w). rewrite Ho. simpl.
    intros e ->. discriminate Ha. }
  unfold mbind at 1, M_bind at 1. rewrite Hred.
  set (w3 := redirected [STDOUT_FILENO] path flags w2).
  unfold mbind at 1, M_bind at 1. unfold mbind at 1, M_bind at 1.
  destruct (shell_pwd_prints w3 c cwd) as (w4 & E & (He & Hf & Hc) & _ & Ht);
    [by (simpl; rewrite Ho)|done|].
  rewrite E. unfold mret at 1, M_ret at 1.
  rewrite (builtin_restore s1 s2 d1 d2 _ w4 (fds w)); try done.
  - eexists. split; [reflexivity|]. split; [by repeat split|].
    simpl. rewrite Ht. simpl. rewrite lookup_insert_eq.
    by rewrite <- app_assoc.
  - rewrite Hf. simpl. rewrite !lookup_insert_ne by done. apply lookup_insert_eq.
  - rewrite Hf. simpl. rewrite lookup_insert_ne by done. apply lookup_insert_eq.
  - intros k K1 K2 K3 K4. rewrite Hf. simpl. by rewrite !lookup_insert_ne.
Qed.

(** X17. [exit] and [quit] without redirection end the process that runs
    them with status 0, whatever their arguments: nothing is printed and
    nothing is asked of the machine before the process ends. *)
Theorem exit_command
    (s : simple_command_t word_t) (v : word_t) (level : Z) (father : command_t)
    (w : World) :
  verb s = Some v → is_Some (word_string v) →
  get_word (env w) v = "exit" ∨ get_word (env w) v = "quit" →
  no_targets s →
  ∃ w', parse_simple (Some s) level father w = Halt (Exited 0) w' ∧
        trace w' = trace w ∧ oracle w' = oracle w ∧ env w' = env w.
Proof.
  intros Hv [str Hstr] Hword Hno.
  assert (Hdup : ∀ fd w0, ∃ r w1, dup fd w0 = Ret r w1 ∧
            trace w1 = trace w0 ∧ oracle w1 = oracle w0 ∧ env w1 = env w0).
  { intros fd w0. unfold dup, mbind, M_bind, get.
    destruct (fds w0 !! fd); by eexists _, _. }
  destruct (Hdup STDOUT_FILENO w) as (r1 & w1 & E1 & T1 & O1 & V1).
  destruct (Hdup STDERR_FILENO w1) as (r2 & w2 & E2 & T2 & O2 & V2).
  unfold parse_simple. rewrite Hv, Hstr.
  unfold mbind at 1, M_bind at 1, get at 1.
  destruct Hword as [-> | ->];
    cbn [strchr String.eqb Ascii.eqb Bool.eqb orb eqb];
    unfold mbind at 1, M_bind at 1; rewrite E1;
    unfold mbind at 1, M_bind at 1; rewrite E2;
    unfold mbind at 1, M_bind at 1;
    rewrite (handle_redirection_no_targets s w2 Hno);
    exists w2; (split; [reflexivity|]); repeat split; congruence.
Qed.

(** X26. [cd] with an argument that is the empty string, without
    redirection, in a process in which [HOME] is set: [shell_cd] takes
    [HOME] as the target, calls [chdir] on it, and then gives the string
    that [getenv] returned to [free]; the command has no defined
    outcome. *)
Theorem cd_empty_argument_undefined
    (s : simple_command_t word_t) (v d : word_t) (home : string)
    (level : Z) (father : command_t) (w : World) :
  verb s = Some v → is_Some (word_string v) →
  get_word (env w) v = "cd" → no_targets s →
  params s = Some d → word_string d = Some "" →
  getenv (env w) "HOME" = Some home →
  ∃ w' rest, parse_simple (Some s) level father w = Undef w' ∧
    trace w' = (trace w ++ EvChdir home (negb (next_fails w)) :: rest)%list.
Proof.
  intros Hv [str Hstr] Hword Hno Hd Hempty Hhome.
  assert (Hdup : ∀ fd w0, ∃ r w1, dup fd w0 = Ret r w1 ∧
            trace w1 = trace w0 ∧ oracle w1 = oracle w0 ∧ env w1 = env w0).
  { intros fd w0. unfold dup, mbind, M_bind, get.
    destruct (fds w0 !! fd); by eexists _, _. }
  destruct (Hdup STDOUT_FILENO w) as (r1 & w1 & E1 & T1 & O1 & V1).
  destruct (Hdup STDERR_FILENO w1) as (r2 & w2 & E2 & T2 & O2 & V2).
  destruct (shell_cd_frees_home (params s) w2 home) as (w' & rest & E & _ & Ht).
  { unfold cd_frees_home. by rewrite Hd, Hempty, V2, V1, Hhome. }
  { by rewrite V2, V1. }
  exists w', rest. split.
  - unfold parse_simple. rewrite Hv, Hstr.
    unfold mbind at 1, M_bind at 1, get at 1. rewrite Hword.
    cbn [strchr String.eqb Ascii.eqb Bool.eqb orb eqb].
    unfold mbind at 1, M_bind at 1. rewrite E1.
    unfold mbind at 1, M_bind at 1. rewrite E2.
    unfold mbind at 1, M_bind at 1.
    rewrite (handle_redirection_no_targets s w2 Hno).
    unfold mbind at 1, M_bind at 1. unfold mbind at 1, M_bind at 1.
    by rewrite E.
  - rewrite Ht. unfold next_fails. by rewrite T2, T1, O2, O1.
Qed.

(** X18. When the input file of a command cannot be opened,
    [handle_redirection] ends the process with status 1 after reporting
    the error, before it looks at the output and error targets: no other
    file is opened, so none is created or truncated. *)
Theorem input_failure_opens_nothing_else
    (s : simple_command_t word_t) (win : word_t) (path : string)
    (w : World) (e : Z) :
  in_ s = Some win →
  expand_variables (env w) (word_string win) = Fits (Some path) →
  hd Done (oracle w) = Error e →
  ∃ w', handle_redirection (Some s) w = Halt (Exited 1) w' ∧
        fds w' = fds w ∧ oracle w' = tl (oracle w) ∧
        trace w' = (trace w ++
          [EvOpen path O_RDONLY None;
           EvPerror (fds w !! STDERR_FILENO) "Error opening input file" e])%list.
Proof.
  intros Hin Hexp Hfail.
  unfold handle_redirection, redirect_input. rewrite Hin.
  unfold mbind at 1, M_bind at 1. unfold mbind at 1, M_bind at 1, get at 1.
  rewrite Hexp. unfold open, ask. unfold mbind, M_bind. rewrite Hfail.
  eexists. split; [reflexivity|]. simpl. repeat split. by rewrite <- app_assoc.
Qed.

End Internal.

(** ** External programs and assignments *)

Section Programs.
Context {P : Parser}.

(** X19. What an external command returns, from the status its child
    ended with: the exit code when the child exited, and 1 when it was
    ended by a signal. *)
Theorem external_status
    (s : simple_command_t word_t) (v : word_t) (level : Z) (father : command_t)
    (w : World) (pid : Z) (st : wait_status) (w1 : World) :
  verb s = Some v → is_Some (word_string v) →
  strchr (get_word (env w) v) "=" = false →
  is_builtin (get_word (env w) v) = false →
  forks (external s (get_word (env w) v)) w pid st w1 →
  ∃ w', parse_simple (Some s) level father w
        = Ret (match st with Exited code => code | Signaled _ => 1 end) w'.
Proof.
  intros Hv [str Hstr] Heq Hb (Hfork & Hpid & Hst).
  unfold parse_simple. rewrite Hv, Hstr.
  unfold mbind at 1, M_bind at 1, get at 1.
  unfold is_builtin in Hb. rewrite Heq, Hb.
  unfold mbind at 1, M_bind at 1. rewrite Hfork.
  destruct (Z.eqb_spec pid (-1)) as [|_]; [done|].
  unfold mbind at 1, M_bind at 1. rewrite (waitpid_found pid st w1 Hst).
  destruct st; by eexists.
Qed.

(** X20. When the process for an external command cannot be created,
    [parse_simple] reports it with [perror], returns 1 and leaves the
    caller as it was; nothing is run and no redirection is applied. *)
Theorem external_fork_refused
    (s : simple_command_t word_t) (v : word_t) (level : Z) (father : command_t)
    (w : World) (e : Z) :
  verb s = Some v → is_Some (word_string v) →
  strchr (get_word (env w) v) "=" = false →
  is_builtin (get_word (env w) v) = false →
  hd Done (oracle w) = Error e →
  ∃ w', parse_simple (Some s) level father w = Ret 1 w' ∧ same_process w w' ∧
        oracle w' = tl (oracle w) ∧
        trace w' = (trace w ++ [EvPerror (fds w !! STDERR_FILENO) "fork" e])%list.
Proof.
  intros Hv [str Hstr] Heq Hb Hfail.
  unfold parse_simple. rewrite Hv, Hstr.
  unfold mbind at 1, M_bind at 1, get at 1.
  unfold is_builtin in Hb. rewrite Heq, Hb.
  unfold mbind at 1, M_bind at 1. rewrite (fork_refused _ w e Hfail).
  eexists. split; [reflexivity|]. by repeat split.
Qed.

(** X21. When the program of an external command without redirection
    cannot be executed, the child prints a diagnostic naming the verb on
    its standard error and exits, and the command returns 1. *)
Theorem external_exec_fails
    (s : simple_command_t word_t) (v : word_t) (level : Z) (father : command_t)
    (w : World) (e : Z) (rest : list answer) :
  verb s = Some v → is_Some (word_string v) →
  strchr (get_word (env w) v) "=" = false →
  is_builtin (get_word (env w) v) = false →
  no_targets s →
  oracle w = Done :: Error e :: rest →
  ∃ w', parse_simple (Some s) level father w = Ret 1 w' ∧ same_process w w' ∧
        trace w' = (trace w ++
          [EvOutput (fds w !! STDERR_FILENO)
             (String.append "Execution failed for '"
                (String.append (get_word (env w) v) (String.append "'" nl)))])%list.
Proof.
  intros Hv [str Hstr] Heq Hb Hno Ho.
  set (word := get_word (env w) v) in *.
  set (w0 := with_oracle (Error e :: rest) w).
  assert (Hchild : ∃ wc, external s word (with_children ∅ w0) = Halt (Exited 1) wc ∧
            trace wc = (trace w ++
              [EvOutput (fds w !! STDERR_FILENO)
                 (String.append "Execution failed for '"
                    (String.append word (String.append "'" nl)))])%list).
  { unfold external. unfold mbind at 1, M_bind at 1.
    rewrite (handle_redirection_no_targets s _ Hno).
    unfold mbind at 1, M_bind at 1, get at 1.
    unfold execvp. destruct (String.eqb word "").
    - eexists. split; [reflexivity|]. reflexivity.
    - eexists. split; [reflexivity|]. reflexivity. }
  destruct Hchild as (wc & Hchild & Ht).
  assert (Hfork : fork (external s word) w
                  = Ret (alloc_pid (children w))
                        (resume w (alloc_pid (children w)) (Exited 1) wc)).
  { unfold fork, ask. rewrite Ho. simpl hd. simpl tl. cbv iota beta.
    fold w0. by rewrite Hchild. }
  destruct (alloc_pid_unused (children w)) as [Hfree Hpos].
  unfold parse_simple. rewrite Hv, Hstr.
  unfold mbind at 1, M_bind at 1, get at 1. fold word.
  unfold is_builtin in Hb. rewrite Heq, Hb.
  unfold mbind at 1, M_bind at 1. rewrite Hfork.
  destruct (Z.eqb_spec (alloc_pid (children w)) (-1)) as [E|_]; [lia|].
  unfold mbind at 1, M_bind at 1.
  rewrite (waitpid_found (alloc_pid (children w)) (Exited 1))
    by apply lookup_insert_eq.
  eexists. split; [reflexivity|]. split; [|exact Ht].
  repeat split. simpl. by apply delete_insert_fresh.
Qed.

(** X22. Every simple command whose verb holds [=] ends in
    [free(word_copy)] on a pointer that [strtok_r] has moved on from the
    start of the copy, after [setenv] when both tokens are there: the
    call has no defined outcome, it does not return.  Until then it has
    run in the calling process and touched nothing but the environment:
    no process is created, no file is opened (its redirections are
    ignored) and nothing is printed. *)
Theorem assignment_never_returns
    (s : simple_command_t word_t) (v : word_t) (level : Z) (father : command_t)
    (w : World) :
  verb s = Some v → is_Some (word_string v) →
  strchr (get_word (env w) v) "=" = true →
  ∃ w', parse_simple (Some s) level father w = Undef w' ∧
        fds w' = fds w ∧ children w' = children w ∧
        trace w' = trace w ∧ oracle w' = oracle w.
Proof.
  intros Hv [str Hstr] Heq.
  pose proof (word_copy_advanced _ Heq) as Hadv.
  unfold parse_simple. rewrite Hv, Hstr.
  unfold mbind at 1, M_bind at 1, get at 1. rewrite Heq.
  destruct (strtok_r (Some _) _ _) as [name word_copy]. simpl in Hadv.
  destruct (strtok_r None _ _) as [value word_copy']. simpl in Hadv.
  destruct (String.length _ - String.length word_copy')%nat as [|offset];
    [done|].
  destruct name as [name|], value as [value|];
    try (eexists; split; [reflexivity|]; by repeat split).
  unfold setenv, mbind, M_bind, get, failing, modify, mret, M_ret.
  destruct (String.eqb name "" || strchr name "=");
    [|destruct (env w !! name)]; simpl;
    eexists; (split; [reflexivity|]); by repeat split.
Qed.

(** X23. The arguments [level] and [father] of [parse_command] serve the
    guard at its entry and nothing else: every call that passes the
    guard evaluates the tree as the call at level 0 does. *)
Theorem level_and_father_only_guard (c : command_t) (level : Z) (father : command_t) :
  well_called level father →
  parse_command c level father = parse_command c 0 NULL.
Proof.
  assert (H : ∀ c l1 f1 l2 f2, well_called l1 f1 → well_called l2 f2 →
                parse_command c l1 f1 = parse_command c l2 f2).
  { clear. induction c as [|op c1 IH1 c2 IH2 scmd]; intros l1 f1 l2 f2 H1 H2.
    { reflexivity. }
    unfold well_called in H1, H2. simpl. rewrite H1, H2.
    set (c := Command op c1 c2 scmd).
    assert (E1 : parse_command c1 (l1 + 1) c = parse_command c1 (l2 + 1) c)
      by (by apply IH1).
    assert (E2 : parse_command c2 (l1 + 1) c = parse_command c2 (l2 + 1) c)
      by (by apply IH2).
    destruct op; try reflexivity.
    - by rewrite E1, E2.
    - unfold run_in_parallel. by rewrite E1, E2.
    - by rewrite E1, E2.
    - by rewrite E1, E2.
    - unfold run_on_pipe. by rewrite E1, E2. }
  intros Hcall. by apply H.
Qed.

(** X24. When the second fork of a PIPE node fails, the node closes both
    ends of the pipe, waits for the first child, and returns -1 with its
    process as it was before the node. *)
Theorem pipe_second_fork_refused
    (cmd1 cmd2 : command_t) (scmd : option (simple_command_t word_t))
    (level : Z) (father : command_t)
    (w : World) (pipefd0 pipefd1 : Z) (w0 : World)
    (pid1 : Z) (s1 : wait_status) (w1 : World) (e : Z) :
  let c := Command OP_PIPE cmd1 cmd2 scmd in
  well_called level father →
  pipe w = Ret (Some (pipefd0, pipefd1)) w0 →
  forks (pipe_writer pipefd0 pipefd1 (parse_command cmd1 (level + 1) c))
        w0 pid1 s1 w1 →
  hd Done (oracle w1) = Error e →
  ∃ w', parse_command c level father w = Ret (-1) w' ∧ same_process w w'.
Proof.
  intros c Hcall Hpipe H1 Hfail.
  destruct (pipe_created _ _ _ _ Hpipe) as (id & Hfree0 & Hfree1 & Hfds0 & He0 & Hc0).
  destruct (forks_children _ _ _ _ _ H1) as (Hc1 & Hfr1 & Hf1 & He1).
  assert (Hfdne : pipefd0 ≠ pipefd1)
    by (intros ->; by rewrite lookup_insert_eq in Hfree1).
  destruct H1 as (H1 & Hp1 & Hs1).
  simpl. rewrite Hcall. unfold run_on_pipe.
  unfold mbind at 1, M_bind at 1. unfold mbind at 1, M_bind at 1.
  rewrite Hpipe. fold c.
  unfold mbind at 1, M_bind at 1. rewrite H1.
  destruct (Z.eqb_spec pid1 (-1)) as [|_]; [done|].
  unfold mbind at 1, M_bind at 1. rewrite (fork_refused _ w1 e Hfail).
  change (-1 <? 0) with true. cbv iota.
  unfold mbind at 1, M_bind at 1. unfold mbind at 1, M_bind at 1.
  rewrite (close_open pipefd0 (PipeRead id))
    by (simpl; rewrite Hf1, Hfds0, lookup_insert_ne by done; apply lookup_insert_eq).
  unfold mbind at 1, M_bind at 1.
  rewrite (close_open pipefd1 (PipeWrite id))
    by (simpl; rewrite lookup_delete_ne by done;
        rewrite Hf1, Hfds0; apply lookup_insert_eq).
  unfold mbind at 1, M_bind at 1. unfold mbind at 1, M_bind at 1.
  rewrite (waitpid_found pid1 s1) by exact Hs1.
  eexists. split; [reflexivity|]. simpl.
  repeat split; simpl.
  - congruence.
  - rewrite Hf1, Hfds0.
    rewrite (delete_insert_ne _ pipefd0 pipefd1) by done.
    rewrite (delete_insert_fresh (fds w) pipefd0) by done.
    apply delete_insert_fresh. by rewrite lookup_insert_ne in Hfree1.
  - rewrite Hc1, Hc0. rewrite Hc0 in Hfr1. by apply delete_insert_fresh.
Qed.

End Programs.

(** ** Evaluations that stay defined *)






















Section Defined.
Context {P : Parser}.
Variable e : gmap string string.
















End Defined.




(** ** The further properties on sample commands *)

(** [ls &> out.txt] with [ls] exiting with 2. *)
Lemma external_leaves_caller_witness :
  ∃ w', parse_simple (Some ls_both) 0 NULL (boot ∅ [Done; Done; Status 2]) = Ret 2 w' ∧
        same_process (boot ∅ [Done; Done; Status 2]) w'.
Proof.
  eexists. split; [vm_compute; reflexivity|].
  eapply (external_leaves_caller ls_both ["ls"] 0 NULL _ 2 _).
  - reflexivity.
  - by eexists.
  - reflexivity.
  - reflexivity.
  - vm_compute. reflexivity.
Defined.

(** [false & true] *)
Lemma parallel_leaves_caller_witness :
  ∃ r w', parse_command false_and_true 0 NULL
            (boot ∅ [Done; Done; Status 1; Done; Done; Status 0]) = Ret r w' ∧
          same_process (boot ∅ [Done; Done; Status 1; Done; Done; Status 0]) w'.
Proof.
  eapply (parallel_leaves_caller (leaf (simple "false" [])) (leaf (simple "true" []))
            None 0 NULL _ 1 (Exited 1) _ 2 (Exited 0) _).
  - reflexivity.
  - reflexivity.
  - reflexivity.
  - split; [vm_compute; reflexivity|]. split; [done | reflexivity].
  - split; [vm_compute; reflexivity|]. split; [done | reflexivity].
Defined.

(** [false | grep x] *)
Lemma pipe_leaves_caller_witness :
  ∃ r w', parse_command false_into_grep 0 NULL
            (boot ∅ [Done; Done; Done; Status 1; Done; Done; Status 0]) = Ret r w' ∧
          same_process (boot ∅ [Done; Done; Done; Status 1; Done; Done; Status 0]) w'.
Proof.
  eapply (pipe_leaves_caller (leaf (simple "false" [])) (leaf (simple "grep" ["x"]))
            None 0 NULL _ 3 4 _ 1 (Exited 1) _ 2 (Exited 0) _).
  - reflexivity.
  - vm_compute. reflexivity.
  - split; [vm_compute; reflexivity|]. split; [done | reflexivity].
  - split; [vm_compute; reflexivity|]. split; [done | reflexivity].
Defined.

(** [false | grep x] when no descriptor is left for the pipe. *)
Lemma pipe_refused_witness :
  ∃ w', parse_command false_into_grep 0 NULL (boot ∅ [Error EMFILE]) = Ret (-1) w' ∧
        same_process (boot ∅ [Error EMFILE]) w' ∧
        trace w' =
          [EvPerror (Some Terminal) "pipe (resource-related error)" EMFILE;
           EvOutput (Some Terminal) (String.append "Error: Pipe execution failed" nl)].
Proof.
  exact (pipe_refused (leaf (simple "false" [])) (leaf (simple "grep" ["x"]))
           None 0 NULL (boot ∅ [Error EMFILE]) EMFILE eq_refl eq_refl).
Defined.

(** [false | grep x] when the first fork fails with EAGAIN: descriptors 3
    and 4 stay open. *)
Lemma pipe_first_fork_refused_witness :
  ∃ w', parse_command false_into_grep 0 NULL (boot ∅ [Done; Error EAGAIN]) = Ret (-1) w' ∧
        fds (boot ∅ [Done; Error EAGAIN]) !! 3 = None ∧
        fds (boot ∅ [Done; Error EAGAIN]) !! 4 = None ∧
        is_Some (fds w' !! 3) ∧ is_Some (fds w' !! 4).
Proof.
  eapply (pipe_first_fork_refused (leaf (simple "false" []))
            (leaf (simple "grep" ["x"])) None 0 NULL
            (boot ∅ [Done; Error EAGAIN]) 3 4 _ EAGAIN).
  - reflexivity.
  - vm_compute. reflexivity.
  - reflexivity.
Defined.

(** [false & true] when the second fork fails: child 1 is left unwaited. *)
Lemma parallel_second_fork_refused_witness :
  ∃ w', parse_command false_and_true 0 NULL
          (boot ∅ [Done; Done; Status 1; Error EAGAIN]) = Ret (-1) w' ∧
        children (boot ∅ [Done; Done; Status 1; Error EAGAIN]) !! 1 = None ∧
        children w' !! 1 = Some (Exited 1).
Proof.
  eapply (parallel_second_fork_refused (leaf (simple "false" []))
            (leaf (simple "true" [])) None 0 NULL
            (boot ∅ [Done; Done; Status 1; Error EAGAIN]) 1 (Exited 1) _ EAGAIN).
  - reflexivity.
  - reflexivity.
  - reflexivity.
  - split; [vm_compute; reflexivity|]. split; [done | reflexivity].
  - reflexivity.
Defined.

(** [cd "/no'where"] when [chdir] fails. *)
Lemma cd_command_witness :
  ∃ r w', parse_simple (Some (simple "cd" ["/no'where"])) 0 NULL
            (boot ∅ [Error ENOENT]) = Ret r w' ∧
          same_process (boot ∅ [Error ENOENT]) w' ∧ r = 1.
Proof.
  edestruct (cd_command (simple "cd" ["/no'where"]) ["cd"] 0 NULL
               (boot ∅ [Error ENOENT]) Terminal Terminal)
    as (r & w' & E & Hs & Hspec).
  - reflexivity.
  - by eexists.
  - reflexivity.
  - by repeat split.
  - reflexivity.
  - reflexivity.
  - reflexivity.
  - exists r, w'. vm_compute (cd_target _ _) in Hspec.
    destruct Hspec as (-> & _).
    split; [exact E|]. split; [exact Hs|]. reflexivity.
Defined.

(** [pwd] when [getcwd] fails twice. *)
Lemma pwd_command_witness :
  ∃ w', parse_simple (Some (simple "pwd" [])) 0 NULL
          (boot ∅ [Error ENOENT; Error ENOENT]) = Ret 0 w' ∧
        trace w' = [EvPerror (Some Terminal) "pwd" ENOENT].
Proof.
  edestruct (pwd_command (simple "pwd" []) ["pwd"] 0 NULL
               (boot ∅ [Error ENOENT; Error ENOENT]) Terminal Terminal)
    as (w' & E & _ & _ & Ht).
  - reflexivity.
  - by eexists.
  - reflexivity.
  - by repeat split.
  - reflexivity.
  - reflexivity.
  - exists w'. split; [exact E|]. exact (Ht ENOENT ENOENT [] eq_refl).
Defined.

(** [pwd > out.txt] in [/home]. *)
Lemma pwd_to_file_witness :
  let flags := Z.lor (Z.lor O_WRONLY O_CREAT) O_TRUNC in
  ∃ w', parse_simple (Some pwd_to_out) 0 NULL (boot ∅ [Done; Text "/home"]) = Ret 0 w' ∧
        same_process (boot ∅ [Done; Text "/home"]) w' ∧
        trace w' = [EvOpen "out.txt" flags (Some 1%positive);
                    EvOutput (Some (File 1 "out.txt" flags)) (String.append "/home" nl)].
Proof.
  intros flags.
  eapply (pwd_to_file pwd_to_out ["pwd"] ["out.txt"] "out.txt" 0 NULL
            (boot ∅ [Done; Text "/home"]) Terminal Terminal Done "/" "home" []).
  - reflexivity.
  - by eexists.
  - reflexivity.
  - reflexivity.
  - reflexivity.
  - reflexivity.
  - vm_compute. reflexivity.
  - reflexivity.
  - reflexivity.
  - reflexivity.
  - reflexivity.
  - simpl. lia.
Defined.

(** [exit 3] *)
Lemma exit_command_witness :
  ∃ w', parse_simple (Some (simple "exit" ["3"])) 0 NULL (boot ∅ []) = Halt (Exited 0) w' ∧
        trace w' = [] ∧ oracle w' = [] ∧ env w' = ∅.
Proof.
  eapply (exit_command (simple "exit" ["3"]) ["exit"] 0 NULL (boot ∅ [])).
  - reflexivity.
  - by eexists.
  - by left.
  - by repeat split.
Defined.

(** [cat < missing > out.txt]: [out.txt] is not opened. *)
Lemma input_failure_opens_nothing_else_witness :
  ∃ w', handle_redirection (Some cat_missing_to_out) (boot ∅ [Error ENOENT]) = Halt (Exited 1) w' ∧
        fds w' = fds (boot ∅ [Error ENOENT]) ∧ oracle w' = [] ∧
        trace w' = [EvOpen "missing" O_RDONLY None;
                    EvPerror (Some Terminal) "Error opening input file" ENOENT].
Proof.
  eapply (input_failure_opens_nothing_else cat_missing_to_out ["missing"] "missing"
            (boot ∅ [Error ENOENT]) ENOENT).
  - reflexivity.
  - vm_compute. reflexivity.
  - reflexivity.
Defined.

(** [ls &> out.txt] with [ls] ended by signal 9. *)
Lemma external_status_witness :
  ∃ w', parse_simple (Some ls_both) 0 NULL (boot ∅ [Done; Done; Killed 9]) = Ret 1 w'.
Proof.
  eapply (external_status ls_both ["ls"] 0 NULL _ 1 (Signaled 9) _).
  - reflexivity.
  - by eexists.
  - reflexivity.
  - reflexivity.
  - split; [vm_compute; reflexivity|]. split; [done | reflexivity].
Defined.

(** [ls] when no process can be created. *)
Lemma external_fork_refused_witness :
  ∃ w', parse_simple (Some (simple "ls" [])) 0 NULL (boot ∅ [Error EAGAIN]) = Ret 1 w' ∧
        same_process (boot ∅ [Error EAGAIN]) w' ∧ oracle w' = [] ∧
        trace w' = [EvPerror (Some Terminal) "fork" EAGAIN].
Proof.
  eapply (external_fork_refused (simple "ls" []) ["ls"] 0 NULL
            (boot ∅ [Error EAGAIN]) EAGAIN).
  - reflexivity.
  - by eexists.
  - reflexivity.
  - reflexivity.
  - reflexivity.
Defined.

(** [nosuch] when there is no such program. *)
Lemma external_exec_fails_witness :
  ∃ w', parse_simple (Some (simple "nosuch" [])) 0 NULL
          (boot ∅ [Done; Error ENOENT]) = Ret 1 w' ∧
        same_process (boot ∅ [Done; Error ENOENT]) w' ∧
        trace w' = [EvOutput (Some Terminal)
                      (String.append "Execution failed for 'nosuch'" nl)].
Proof.
  eapply (external_exec_fails (simple "nosuch" []) ["nosuch"] 0 NULL
            (boot ∅ [Done; Error ENOENT]) ENOENT []).
  - reflexivity.
  - by eexists.
  - reflexivity.
  - reflexivity.
  - by repeat split.
  - reflexivity.
Defined.

(** [A= > out.txt] *)
Lemma assignment_never_returns_witness :
  ∃ w', parse_simple (Some assign_empty_to_out) 0 NULL (boot ∅ []) = Undef w' ∧
        fds w' = fds (boot ∅ []) ∧ children w' = ∅ ∧
        trace w' = [] ∧ oracle w' = [].
Proof.
  eapply (assignment_never_returns assign_empty_to_out ["A="] 0 NULL (boot ∅ [])).
  - reflexivity.
  - by eexists.
  - reflexivity.
Defined.

(** [false & true] under a father, at level 1. *)
Lemma level_and_father_only_guard_witness :
  parse_command false_and_true 1 (leaf (simple "ls" []))
  = parse_command false_and_true 0 NULL.
Proof.
  apply (level_and_father_only_guard false_and_true 1 (leaf (simple "ls" []))).
  reflexivity.
Defined.

(** [false | grep x] when the second fork fails. *)
Lemma pipe_second_fork_refused_witness :
  ∃ w', parse_command false_into_grep 0 NULL
          (boot ∅ [Done; Done; Done; Status 1; Error EAGAIN]) = Ret (-1) w' ∧
        same_process (boot ∅ [Done; Done; Done; Status 1; Error EAGAIN]) w'.
Proof.
  eapply (pipe_second_fork_refused (leaf (simple "false" []))
            (leaf (simple "grep" ["x"])) None 0 NULL _ 3 4 _ 1 (Exited 1) _ EAGAIN).
  - reflexivity.
  - vm_compute. reflexivity.
  - split; [vm_compute; reflexivity|]. split; [done | reflexivity].
  - reflexivity.
Defined.



(** [cd ""] with [HOME] set. *)
Lemma cd_empty_argument_undefined_witness :
  ∃ w' rest, parse_simple (Some (simple "cd" [""])) 0 NULL
               (boot {[ "HOME" := "/root" ]} []) = Undef w' ∧
    trace w' = (trace (boot {[ "HOME" := "/root" ]} [])
                ++ EvChdir "/root" (negb (next_fails (boot {[ "HOME" := "/root" ]} [])))
                   :: rest)%list.
Proof.
  eapply (cd_empty_argument_undefined (simple "cd" [""]) ["cd"] [""] "/root"
            0 NULL (boot {[ "HOME" := "/root" ]} [])).
  - reflexivity.
  - by eexists.
  - reflexivity.
  - by repeat split.
  - reflexivity.
  - reflexivity.
  - reflexivity.
Defined.
